(** * go-httpdebug: the curl-rendering round tripper

    A shallow embedding of [httpdebug/httpdebug.go] and of the parts of
    the Go standard library it calls ([strings], [sort], [net/url],
    [io/ioutil], [bytes]), followed by the properties of the rendering
    and of the dispatch that the specification states.

    Go strings are byte strings, as Rocq's [string] is; a [[]byte] is a
    [list byte].  Go maps are [gmap]s; their unspecified iteration order
    is made explicit where the source ranges over one. *)

From Stdlib Require Import Strings.Ascii Strings.String Strings.Byte NArith.
From stdpp Require Import base option list sorting gmap strings.

(** * The embedding *)

(** ** Package [strings] *)

(** [strings.Join(elems, sep)]. *)
Fixpoint Join (elems : list string) (sep : string) : string :=
  match elems with
  | [] => ""
  | [e] => e
  | e :: rest => e +:+ sep +:+ Join rest sep
  end.

(** [strings.ReplaceAll(s, old, new)] at a one-byte [old]: the bytes of
    [s] from left to right, each occurrence of [old] replaced by [new]. *)
Fixpoint ReplaceAll (s : string) (old : ascii) (new : string) : string :=
  match s with
  | EmptyString => ""
  | String c rest =>
      if Ascii.eqb c old then new +:+ ReplaceAll rest old new
      else String c (ReplaceAll rest old new)
  end.

(** The fold of one byte that [strings.EqualFold] applies to ASCII
    letters: 'A'..'Z' onto 'a'..'z'. *)
Definition foldByte (c : ascii) : ascii :=
  let n := N_of_ascii c in
  if (65 <=? n)%N && (n <=? 90)%N then ascii_of_N (n + 32) else c.

(** [strings.EqualFold(s, t)] for two strings of ASCII bytes, where it
    compares byte by byte up to the case of letters.  The embedding of
    the package does not call it (see [Folding] below); it serves to
    run the embedding on ASCII text. *)
Fixpoint EqualFoldASCII (s t : string) : bool :=
  match s, t with
  | EmptyString, EmptyString => true
  | String a s', String b t' =>
      Ascii.eqb (foldByte a) (foldByte b) && EqualFoldASCII s' t'
  | _, _ => false
  end.

(** [strings.Cut(s, sep)] at a one-byte separator. *)
Fixpoint Cut (s : string) (sep : ascii) : string * string * bool :=
  match s with
  | EmptyString => ("", "", false)
  | String c rest =>
      if Ascii.eqb c sep then ("", rest, true)
      else let '(before, after, found) := Cut rest sep in
           (String c before, after, found)
  end.

(** [strings.Contains(s, substr)]. *)
Fixpoint Contains (s substr : string) : bool :=
  String.prefix substr s
  || match s with
     | EmptyString => false
     | String _ rest => Contains rest substr
     end.

(** The pieces that repeated [strings.Cut(query, sep)] cuts off, in
    order, with an empty last piece where the loop of the caller stops
    on an empty rest (the caller skips empty pieces). *)
Fixpoint Pieces (s : string) (sep : ascii) : list string :=
  match s with
  | EmptyString => [""]
  | String c rest =>
      if Ascii.eqb c sep then "" :: Pieces rest sep
      else match Pieces rest sep with
           | [] => [String c ""]
           | p :: ps => String c p :: ps
           end
  end.

(** ** Package [sort] *)

(** [sort.Strings]: ascending byte-wise lexicographic order.  The order
    is total and antisymmetric, so the sorted list of a given multiset
    is unique and every correct sorting algorithm returns it. *)
Definition sort_Strings (x : list string) : list string :=
  merge_sort String.le x.

(** ** The source's own helper *)

Definition escapeSingleQuote (s : string) : string :=
  ReplaceAll s "'"%char "\'".

(** ** Package [net/url] *)

(** [url.Values]: [map[string][]string]. *)
Abbreviation Values := (gmap string (list string)).

Definition ishex (c : ascii) : bool :=
  let n := N_of_ascii c in
  ((48 <=? n) && (n <=? 57) || (97 <=? n) && (n <=? 102) || (65 <=? n) && (n <=? 70))%N.

Definition unhex (c : ascii) : N :=
  let n := N_of_ascii c in
  (if (48 <=? n) && (n <=? 57) then n - 48
   else if (97 <=? n) && (n <=? 102) then n - 97 + 10
   else if (65 <=? n) && (n <=? 70) then n - 65 + 10
   else 0)%N.

(** The digit of [upperhex] at index [n]. *)
Definition upperhex (n : N) : ascii :=
  (if n <? 10 then ascii_of_N (48 + n) else ascii_of_N (65 + (n - 10)))%N.

(** [url.QueryUnescape]: [%XX] to the byte, [+] to a space; [None] is
    the [EscapeError] of a [%] not followed by two hex digits. *)
Fixpoint QueryUnescape (s : string) : option string :=
  match s with
  | EmptyString => Some ""
  | String c rest =>
      if Ascii.eqb c "%"%char then
        match rest with
        | String h1 (String h2 rest') =>
            if ishex h1 && ishex h2
            then String (ascii_of_N (unhex h1 * 16 + unhex h2)) <$> QueryUnescape rest'
            else None
        | _ => None
        end
      else if Ascii.eqb c "+"%char then String " "%char <$> QueryUnescape rest
      else String c <$> QueryUnescape rest
  end.

(** [shouldEscape(c, encodeQueryComponent)]: letters, digits and
    [-_.~] are the only bytes left as they are. *)
Definition shouldEscape (c : ascii) : bool :=
  let n := N_of_ascii c in
  negb ((97 <=? n) && (n <=? 122) || (65 <=? n) && (n <=? 90) || (48 <=? n) && (n <=? 57)
        || (n =? 45) || (n =? 95) || (n =? 46) || (n =? 126))%N.

(** [url.QueryEscape]. *)
Fixpoint QueryEscape (s : string) : string :=
  match s with
  | EmptyString => ""
  | String c rest =>
      if Ascii.eqb c " "%char then String "+"%char (QueryEscape rest)
      else if shouldEscape c then
        let n := N_of_ascii c in
        String "%"%char (String (upperhex (n / 16)) (String (upperhex (n mod 16))
          (QueryEscape rest)))
      else String c (QueryEscape rest)
  end.

(** One turn of the loop of [parseQuery], on the piece cut off before
    the next [&]: pieces with a semicolon, empty pieces and pieces that
    do not unescape are skipped (the error they raise is dropped by
    [Query]). *)
Definition parsePiece (m : Values) (piece : string) : Values :=
  if Contains piece ";" then m
  else if String.eqb piece "" then m
  else
    let '(key, value, _) := Cut piece "="%char in
    match QueryUnescape key with
    | None => m
    | Some key =>
        match QueryUnescape value with
        | None => m
        | Some value => <[key := default [] (m !! key) ++ [value]]> m
        end
    end.

(** [url.ParseQuery] without its error, as [URL.Query] uses it. *)
Definition ParseQuery (query : string) : Values :=
  foldl parsePiece ∅ (Pieces query "&"%char).

(** [Values.Get]: the first value of [key], the empty string when there
    is none.  The key is looked up as it is. *)
Definition Values_Get (v : Values) (key : string) : string :=
  match v !! key with
  | Some (x :: _) => x
  | _ => ""
  end.

(** [Values.Set]: the whole value list replaced by the one value. *)
Definition Values_Set (v : Values) (key value : string) : Values :=
  <[key := [value]]> v.

(** The text [Values.Encode] writes for one key. *)
Definition encodeKey (v : Values) (k : string) : list string :=
  (λ x, QueryEscape k +:+ "=" +:+ QueryEscape x) <$> default [] (v !! k).

(** The keys of [v] as [Values.Encode] visits them: sorted. *)
Definition sortedKeys (v : Values) : list string :=
  sort_Strings (map_to_list v).*1.

(** [Values.Encode]: keys in sorted order, [key=value] for each value
    of a key in the order of its list, joined by [&].  (The source
    writes the [&] when the buffer is not empty; every pair writes at
    least its [=], so that is before every pair but the first.) *)
Definition Values_Encode (v : Values) : string :=
  Join (sortedKeys v ≫= encodeKey v) "&".

(** [url.URL].  [String] writes scheme, opaque or authority, and path
    first, from fields the source never touches: [Location] is that
    text.  [Fragment] is the fragment as [EscapedFragment] writes it. *)
Record URL := mkURL {
  Location : string;
  ForceQuery : bool;
  RawQuery : string;
  Fragment : string }.

Definition with_RawQuery (u : URL) (q : string) : URL :=
  {| Location := Location u; ForceQuery := ForceQuery u;
     RawQuery := q; Fragment := Fragment u |}.

(** [URL.Query]. *)
Definition URL_Query (u : URL) : Values := ParseQuery (RawQuery u).

(** [URL.String]. *)
Definition URL_String (u : URL) : string :=
  Location u
  +:+ (if ForceQuery u || negb (String.eqb (RawQuery u) "") then "?" +:+ RawQuery u else "")
  +:+ (if negb (String.eqb (Fragment u) "") then "#" +:+ Fragment u else "").

(** ** Packages [io], [io/ioutil], [bytes] *)

(** A Go [error]: [io.EOF], or an error made by [errors.New]. *)
Inductive error :=
  | io_EOF
  | errors_New (msg : string).

(** An [io.Reader], by what its successive [Read] calls return:
    [ReadMore p rest] returns the bytes [p] and no error, and goes on as
    [rest]; [ReadLast p err] returns the bytes [p] together with [err],
    and from then on no bytes and [err] again (as a drained
    [bytes.Buffer] and [iotest.ErrReader] do). *)
Inductive Reader :=
  | ReadMore (p : list byte) (rest : Reader)
  | ReadLast (p : list byte) (err : error).

(** The loop of [io.ReadAll] from the buffer [b]: reads until an error,
    and turns [io.EOF] into no error.  The third component is the
    reader as the loop leaves it. *)
Fixpoint ReadAll_loop (b : list byte) (r : Reader) : list byte * option error * Reader :=
  match r with
  | ReadMore p rest => ReadAll_loop (b ++ p) rest
  | ReadLast p err =>
      (b ++ p, match err with io_EOF => None | _ => Some err end, ReadLast [] err)
  end.

(** [ioutil.ReadAll]. *)
Definition ReadAll (r : Reader) : list byte * option error * Reader :=
  ReadAll_loop [] r.

(** [ioutil.NopCloser(bytes.NewBuffer(buf))]: a reader of its own over
    the bytes [buf], at end of file once they are read. *)
Definition NewBuffer (buf : list byte) : Reader :=
  match buf with
  | [] => ReadLast [] io_EOF
  | _ => ReadMore buf (ReadLast [] io_EOF)
  end.

(** ** Package [net/http] *)

(** [http.Header]: [map[string][]string], keys as they were stored. *)
Abbreviation Header := (gmap string (list string)).

(** [http.Request], the fields the source reads; [None] is [nil]. *)
Record Request := mkRequest {
  Method : string;
  ReqURL : option URL;
  ReqHeader : Header;
  Body : option Reader }.

Definition with_Body (req : Request) (b : option Reader) : Request :=
  {| Method := Method req; ReqURL := ReqURL req;
     ReqHeader := ReqHeader req; Body := b |}.

(** [http.Response] is opaque to this package. *)
Record Response := mkResponse {
  Status : string;
  ResponseBody : list byte }.

(** [http.RoundTripper]: what the delegate answers to a request. *)
Definition RoundTripper := Request → option Response * option error.

(** ** Package [httpdebug] *)

Record CurlTransport := mkCurlTransport {
  SecretHeaders : list string;
  SecretParams : list string;
  Transport : option RoundTripper }.

Definition CurlTransportOption := CurlTransport → CurlTransport.

Definition New (opts : list CurlTransportOption) : CurlTransport :=
  foldl (λ ct opt, opt ct)
    {| SecretHeaders := ["authorization"];
       SecretParams := ["client_secret"];
       Transport := None |}
    opts.

Definition WithSecretHeader (secretHeader : string) : CurlTransportOption :=
  λ ct,
    if negb (String.eqb secretHeader "") then
      {| SecretHeaders := SecretHeaders ct ++ [secretHeader];
         SecretParams := SecretParams ct;
         Transport := Transport ct |}
    else ct.

Definition WithSecretParam (secretParam : string) : CurlTransportOption :=
  λ ct,
    if negb (String.eqb secretParam "") then
      {| SecretHeaders := SecretHeaders ct;
         SecretParams := SecretParams ct ++ [secretParam];
         Transport := Transport ct |}
    else ct.

Definition WithTransport (transport : option RoundTripper) : CurlTransportOption :=
  λ ct,
    {| SecretHeaders := SecretHeaders ct;
       SecretParams := SecretParams ct;
       Transport := transport |}.

(** The body of the loop of [sanitizeURL] over [t.SecretParams], on the
    local variables [params] and [newURL]. *)
Definition sanitizeStep (st : Values * URL) (p : string) : Values * URL :=
  let '(params, newURL) := st in
  if negb (String.eqb (Values_Get params p) "") then
    let params := Values_Set params p "REDACTED" in
    (params, with_RawQuery newURL (Values_Encode params))
  else (params, newURL).

(** The local variables of [sanitizeURL] when its loop ends. *)
Definition sanitizeLoop (t : CurlTransport) (uri : URL) : Values * URL :=
  let newURL := uri in
  let params := URL_Query newURL in
  foldl sanitizeStep (params, newURL) (SecretParams t).

Definition sanitizeURL (t : CurlTransport) (uri : option URL) : string :=
  match uri with
  | None => ""
  | Some uri => URL_String (sanitizeLoop t uri).2
  end.

(** [strings.EqualFold] folds runes by the tables of package
    [unicode], which are no part of this repository: the functions that
    call it take it as the parameter [EqualFold], and what is proved of
    them holds of the library's function. *)
Section Folding.
Variable EqualFold : string → string → bool.

(** The closure [redactSecret] of [dumpRequestAsCurl], with the slice
    [headers] it appends to passed in and out. *)
Fixpoint redactSecret (secrets : list string) (key : string) (headers : list string)
  : bool * list string :=
  match secrets with
  | [] => (false, headers)
  | secret :: secrets' =>
      if EqualFold key secret
      then (true, headers ++ ["-H '" +:+ key +:+ ": <REDACTED>'"])
      else redactSecret secrets' key headers
  end.

(** One turn of [for k, v := range req.Header]. *)
Definition headerStep (t : CurlTransport) (headers : list string)
  (kv : string * list string) : list string :=
  let '(k, v) := kv in
  let '(redacted, headers) := redactSecret (SecretHeaders t) k headers in
  if redacted then headers
  else headers ++ ["-H '" +:+ k +:+ ": " +:+ escapeSingleQuote (Join v ", ") +:+ "'"].

(** The line separator of the command: blank, backslash, newline, two
    blanks. *)
Definition lineSep : string :=
  String " "%char (String "\"%char (String "010"%char "  ")).

(** [range] over a Go map visits every entry once, in an order the
    language leaves open: [entries] is such an order for [h]. *)
Definition rangeOrder (h : Header) (entries : list (string * list string)) : Prop :=
  entries ≡ₚ map_to_list h.

(** [dumpRequestAsCurl], with the order [entries] in which the range
    over [req.Header] runs.  Returns the string, the error ([None] is
    [nil]) and the request as the call leaves it. *)
Definition dumpRequestAsCurlIn (entries : list (string * list string))
  (t : CurlTransport) (req : Request) : string * option error * Request :=
  let lines := ["curl -X " +:+ Method req; sanitizeURL t (ReqURL req)] in
  let headers := foldl (headerStep t) [] entries in
  let headers := sort_Strings headers in
  let lines := lines ++ headers in
  match Body req with
  | Some body =>
      let '(buf, err, body') := ReadAll body in
      match err with
      | Some err => ("", Some err, with_Body req (Some body'))
      | None =>
          let lines := lines ++ ["-d '" +:+ escapeSingleQuote (string_of_list_byte buf) +:+ "'"] in
          let req := with_Body req (Some (NewBuffer buf)) in
          (Join lines lineSep, None, req)
      end
  | None => (Join lines lineSep, None, req)
  end.

(** [dumpRequestAsCurl] in the order [map_to_list] lists the header. *)
Definition dumpRequestAsCurl (t : CurlTransport) (req : Request)
  : string * option error * Request :=
  dumpRequestAsCurlIn (map_to_list (ReqHeader req)) t req.

(** What a call of [RoundTrip] does to the world around it. *)
Inductive event :=
  | Logged (s : string)
  | Sent (req : Request).

Section RoundTrip.
(** [http.DefaultTransport]. *)
Variable DefaultTransport : RoundTripper.

Definition transport (t : CurlTransport) : RoundTripper :=
  match Transport t with
  | Some tr => tr
  | None => DefaultTransport
  end.

(** [RoundTrip]: the response and error returned, the request as the
    call leaves it, and the calls of [logger] and of the delegate it
    made, in order. *)
Definition RoundTripIn (entries : list (string * list string))
  (t : CurlTransport) (req : Request)
  : (option Response * option error) * Request * list event :=
  let '(s, err, req) := dumpRequestAsCurlIn entries t req in
  match err with
  | Some err => ((None, Some err), req, [])
  | None => (transport t req, req, [Logged s; Sent req])
  end.

Definition RoundTrip (t : CurlTransport) (req : Request)
  : (option Response * option error) * Request * list event :=
  RoundTripIn (map_to_list (ReqHeader req)) t req.
End RoundTrip.

(** ** The request behind its pointers *)

(** [dumpRequestAsCurl] is handed a pointer to a request; the URL of
    the request is a pointer again, its header a map and its body a
    stream that reading advances.  To say what a call writes, these
    objects are kept in a store and the functions are written over it,
    statement by statement; [None] is the panic of a nil pointer. *)
Definition loc := positive.

Record RequestObj := mkRequestObj {
  oMethod : string;
  oURL : option loc;
  oHeader : option loc;
  oBody : option loc }.

Record Store := mkStore {
  urlObjs : gmap loc URL;
  headerObjs : gmap loc Header;
  bodyObjs : gmap loc Reader;
  requestObjs : gmap loc RequestObj }.

Definition Run (A : Type) : Type := Store → option (A * Store).

#[global] Instance Run_ret : MRet Run := λ A x σ, Some (x, σ).

#[global] Instance Run_bind : MBind Run := λ A B f m σ,
  match m σ with
  | Some (x, σ') => f x σ'
  | None => None
  end.

(** [*req]. *)
Definition loadRequest (req : loc) : Run RequestObj :=
  λ σ, o ← requestObjs σ !! req; Some (o, σ).

(** [*uri]. *)
Definition loadURL (uri : loc) : Run URL :=
  λ σ, u ← urlObjs σ !! uri; Some (u, σ).

(** The entries of a header map; a nil map has none. *)
Definition loadHeader (h : option loc) : Run Header :=
  λ σ, match h with
       | None => Some (∅, σ)
       | Some h => m ← headerObjs σ !! h; Some (m, σ)
       end.

(** [ioutil.ReadAll] on the stream at [b], which it leaves drained. *)
Definition readAllFrom (b : loc) : Run (list byte * option error) :=
  λ σ, r ← bodyObjs σ !! b;
       let '(buf, err, r') := ReadAll r in
       Some ((buf, err),
             {| urlObjs := urlObjs σ; headerObjs := headerObjs σ;
                bodyObjs := <[b := r']> (bodyObjs σ); requestObjs := requestObjs σ |}).

(** A new stream object: [ioutil.NopCloser(bytes.NewBuffer(buf))]. *)
Definition allocBody (r : Reader) : Run loc :=
  λ σ, let b := fresh (dom (bodyObjs σ)) in
       Some (b,
             {| urlObjs := urlObjs σ; headerObjs := headerObjs σ;
                bodyObjs := <[b := r]> (bodyObjs σ); requestObjs := requestObjs σ |}).

(** [req.Body = b]. *)
Definition storeBody (req : loc) (b : option loc) : Run unit :=
  λ σ, o ← requestObjs σ !! req;
       Some ((),
             {| urlObjs := urlObjs σ; headerObjs := headerObjs σ;
                bodyObjs := bodyObjs σ;
                requestObjs :=
                  <[req := {| oMethod := oMethod o; oURL := oURL o;
                              oHeader := oHeader o; oBody := b |}]> (requestObjs σ) |}).

(** A new URL object holding [u]: the variable [newURL] of
    [sanitizeURL], whose address its methods take. *)
Definition allocURL (u : URL) : Run loc :=
  λ σ, let l := fresh (dom (urlObjs σ)) in
       Some (l,
             {| urlObjs := <[l := u]> (urlObjs σ); headerObjs := headerObjs σ;
                bodyObjs := bodyObjs σ; requestObjs := requestObjs σ |}).

(** [u.RawQuery = q]. *)
Definition storeRawQuery (u : loc) (q : string) : Run unit :=
  λ σ, o ← urlObjs σ !! u;
       Some ((),
             {| urlObjs := <[u := with_RawQuery o q]> (urlObjs σ);
                headerObjs := headerObjs σ;
                bodyObjs := bodyObjs σ; requestObjs := requestObjs σ |}).

(** The loop of [sanitizeURL] over the secret parameters [ps], writing
    to the URL object at [newURL]; [params] is the map of the
    parameters, which the loop updates. *)
Fixpoint sanitizeLoopAt (newURL : loc) (params : Values) (ps : list string) : Run Values :=
  match ps with
  | [] => mret params
  | p :: ps =>
      if negb (String.eqb (Values_Get params p) "") then
        let params := Values_Set params p "REDACTED" in
        _ ← storeRawQuery newURL (Values_Encode params);
        sanitizeLoopAt newURL params ps
      else sanitizeLoopAt newURL params ps
  end.

(** [sanitizeURL] on the pointer: [newURL := *uri] copies the URL into
    an object of its own, [newURL.Query()] reads the parameters off
    it, the loop writes to it and [newURL.String()] reads it. *)
Definition sanitizeURLAt (t : CurlTransport) (uri : option loc) : Run string :=
  match uri with
  | None => mret ""
  | Some uri =>
      u ← loadURL uri;
      newURL ← allocURL u;
      u ← loadURL newURL;
      _ ← sanitizeLoopAt newURL (URL_Query u) (SecretParams t);
      u ← loadURL newURL;
      mret (URL_String u)
  end.

(** [dumpRequestAsCurl] on the pointer [req]. *)
Definition dumpRequestAsCurlAt (t : CurlTransport) (req : loc) : Run (string * option error) :=
  o ← loadRequest req;
  url ← sanitizeURLAt t (oURL o);
  let lines := ["curl -X " +:+ oMethod o; url] in
  h ← loadHeader (oHeader o);
  let headers := foldl (headerStep t) [] (map_to_list h) in
  let headers := sort_Strings headers in
  let lines := lines ++ headers in
  match oBody o with
  | Some b =>
      '(buf, err) ← readAllFrom b;
      match err with
      | Some err => mret ("", Some err)
      | None =>
          let lines :=
            lines ++ ["-d '" +:+ escapeSingleQuote (string_of_list_byte buf) +:+ "'"] in
          b' ← allocBody (NewBuffer buf);
          _ ← storeBody req (Some b');
          mret (Join lines lineSep, None)
      end
  | None => mret (Join lines lineSep, None)
  end.

(** The request at [req] as the record of its contents. *)
Definition view (req : loc) (σ : Store) : option Request :=
  o ← requestObjs σ !! req;
  u ← match oURL o with
      | None => Some None
      | Some uri => Some <$> urlObjs σ !! uri
      end;
  h ← match oHeader o with
      | None => Some ∅
      | Some h => headerObjs σ !! h
      end;
  b ← match oBody o with
      | None => Some None
      | Some b => Some <$> bodyObjs σ !! b
      end;
  Some {| Method := oMethod o; ReqURL := u; ReqHeader := h; Body := b |}.

(** Reading the request at [req] for the delegate. *)
Definition loadView (req : loc) : Run Request :=
  λ σ, sent ← view req σ; Some (sent, σ).

(** [RoundTrip] on the pointer [req], with the delegate [D] when the
    transport has none: the delegate is handed the request as the
    store holds it then. *)
Definition RoundTripAt (D : RoundTripper) (t : CurlTransport) (req : loc)
  : Run ((option Response * option error) * list event) :=
  '(s, err) ← dumpRequestAsCurlAt t req;
  match err with
  | Some err => mret ((None, Some err), [])
  | None =>
      sent ← loadView req;
      mret (transport D t sent, [Logged s; Sent sent])
  end.

(** * Vocabulary of the statements, and sample requests *)

(** ** The header loop *)

(** Whether [key] folds to some entry of [secrets]. *)
Definition isSecret (secrets : list string) (key : string) : bool :=
  existsb (EqualFold key) secrets.

(** The line the loop appends for one header entry. *)
Definition headerLine (t : CurlTransport) (kv : string * list string) : string :=
  if isSecret (SecretHeaders t) kv.1
  then "-H '" +:+ kv.1 +:+ ": <REDACTED>'"
  else "-H '" +:+ kv.1 +:+ ": " +:+ escapeSingleQuote (String.concat ", " kv.2) +:+ "'".

(** The sorted header lines of a request. *)
Definition headerLines (t : CurlTransport) (h : Header) : list string :=
  sort_Strings (headerLine t <$> map_to_list h).

(** ** Reading a body *)

(** The error that ends the reads of [r]. *)
Fixpoint readerErr (r : Reader) : error :=
  match r with
  | ReadMore _ rest => readerErr rest
  | ReadLast _ err => err
  end.

(** All the bytes [r] delivers. *)
Fixpoint readerBytes (r : Reader) : list byte :=
  match r with
  | ReadMore p rest => p ++ readerBytes rest
  | ReadLast p _ => p
  end.

(** ** The rendering as a whole *)

(** The [-d] line of a body that delivered [buf]. *)
Definition bodyLine (buf : list byte) : string :=
  "-d '" +:+ escapeSingleQuote (string_of_list_byte buf) +:+ "'".

(** The first two lines of every command. *)
Definition headLines (t : CurlTransport) (req : Request) : list string :=
  ["curl -X " +:+ Method req; sanitizeURL t (ReqURL req)].

(** A request with a body in two reads, and one whose body fails. *)
Definition sampleBody : Reader :=
  ReadMore (list_byte_of_string "{login:") (ReadLast (list_byte_of_string "l'a}") io_EOF).

Definition samplePost : Request :=
  {| Method := "POST";
     ReqURL := Some {| Location := "/foo"; ForceQuery := false; RawQuery := ""; Fragment := "" |};
     ReqHeader := ∅;
     Body := Some sampleBody |}.

Definition failingBody : Reader :=
  ReadMore (list_byte_of_string "yo") (ReadLast [] (errors_New "custom error")).

Definition sampleBadBody : Request := with_Body samplePost (Some failingBody).

(** The request of the repository's test with two headers. *)
Definition sampleHeader : Header :=
  <["Accept" := ["a'1"; "a2"; "a3"]]> (<["AuthoRizaTion" := ["Bearer ABCD0123"]]> ∅).

Definition sampleGet : Request :=
  {| Method := "GET";
     ReqURL := Some {| Location := "/foo"; ForceQuery := false; RawQuery := ""; Fragment := "" |};
     ReqHeader := sampleHeader;
     Body := None |}.

(** ** The loop of [sanitizeURL] *)

(** The test of the loop: [params.Get(p) != ""]. *)
Definition hasValue (params : Values) (p : string) : bool :=
  negb (String.eqb (Values_Get params p) "").

(** What one turn of the loop does to [params]. *)
Definition redactStep (params : Values) (p : string) : Values :=
  if hasValue params p then Values_Set params p "REDACTED" else params.

(** [params] when the loop ends. *)
Definition redactedParams (t : CurlTransport) (params : Values) : Values :=
  foldl redactStep params (SecretParams t).

(** Whether some turn of the loop rewrites [RawQuery]. *)
Definition redactsSome (t : CurlTransport) (params : Values) : bool :=
  existsb (hasValue params) (SecretParams t).

(** ** Redaction of query parameters *)

(** The text [QueryEscape] writes for one byte. *)
Definition escapeByte (c : ascii) : string := QueryEscape (String c "").

Definition plainURL (location query : string) : URL :=
  {| Location := location; ForceQuery := false; RawQuery := query; Fragment := "" |}.

(** The query of the rendered URL is the sorted encoding of the
    parameters as the loop leaves them. *)
Definition queryInCanonicalOrder (t : CurlTransport) (u : URL) : Prop :=
  sanitizeURL t (Some u)
  = URL_String (with_RawQuery u (Values_Encode (redactedParams t (URL_Query u)))).

(** ** Redaction of headers *)

Definition with_Header (req : Request) (h : Header) : Request :=
  {| Method := Method req; ReqURL := ReqURL req; ReqHeader := h; Body := Body req |}.

(** The command made of [lines]: the lines joined by blank, backslash,
    newline and two blanks. *)
Definition commandOf (lines : list string) : string :=
  String.concat (String " " (String "\" (String "010" (String " " (String " " "")))))
    lines.

(** A line among the lines of a successful rendering. *)
Definition hasLine (line : string) (result : string * option error * Request) : Prop :=
  match result.1.2 with
  | None => ∃ before after, result.1.1 = commandOf (before ++ line :: after)
  | Some _ => result.1.1 = ""
  end.

(** What [URL.String] writes after the query. *)
Definition fragmentText (u : URL) : string :=
  if negb (String.eqb (Fragment u) "") then "#" +:+ Fragment u else "".

(** The values of the parameter [k] in the rendered query: the one
    marker when [k] is an entry of [SecretParams] and its first value
    in [params] is not empty, its values in [params] otherwise. *)
Definition renderedValues (t : CurlTransport) (params : Values) (k : string) : list string :=
  if bool_decide (k ∈ SecretParams t)
     && negb (String.eqb (hd "" (default [] (params !! k))) "")
  then ["REDACTED"]
  else default [] (params !! k).

(** The text of the parameter [k] with the values [vs] in an encoded
    query, one [key=value] for each value. *)
Definition renderedPairs (k : string) (vs : list string) : list string :=
  (λ x, QueryEscape k +:+ "=" +:+ QueryEscape x) <$> vs.

(** No value of a secret header occurs anywhere in the output. *)
Definition secretValuesAbsent (t : CurlTransport) (req : Request) : Prop :=
  ∀ k vs v secret,
    ReqHeader req !! k = Some vs →
    secret ∈ SecretHeaders t →
    EqualFold k secret = true →
    v ∈ vs →
    Contains (dumpRequestAsCurl t req).1.1 v = false.

Definition sampleSharedToken : Request :=
  {| Method := "GET";
     ReqURL := Some (plainURL "/foo" "");
     ReqHeader := <["Authorization" := ["tok123"]]> (<["X-Api-Key" := ["tok123"]]> ∅);
     Body := None |}.

(** ** Escaping of single quotes *)

(** Every single quote of [s] stands right after a backslash, [prev]
    being the byte before [s]. *)
Fixpoint quotesEscapedAfter (prev : ascii) (s : string) : bool :=
  match s with
  | EmptyString => true
  | String c rest =>
      (negb (Ascii.eqb c "'"%char) || Ascii.eqb prev "\"%char)
      && quotesEscapedAfter c rest
  end.

Definition quotesEscaped (s : string) : bool := quotesEscapedAfter " "%char s.

(** A header line with the key escaped as the values are. *)
Definition keyEscapedLine (k : string) (vs : list string) : string :=
  "-H '" +:+ escapeSingleQuote k +:+ ": " +:+ escapeSingleQuote (Join vs ", ") +:+ "'".

Definition sampleQuotedKey : Request :=
  {| Method := "GET";
     ReqURL := Some (plainURL "/foo" "");
     ReqHeader := <["X-It's" := ["v'1"]]> ∅;
     Body := None |}.

Definition sampleQuotes : Request :=
  {| Method := "POST";
     ReqURL := Some (plainURL "/foo" "");
     ReqHeader := sampleHeader;
     Body := Some sampleBody |}.

(** * Vocabulary of the further properties *)

(** ** The options of the package *)

(** The three options the package offers, by name. *)
Inductive Opt :=
  | OptSecretHeader (secretHeader : string)
  | OptSecretParam (secretParam : string)
  | OptTransport (transport : option RoundTripper).

Definition optionOf (o : Opt) : CurlTransportOption :=
  match o with
  | OptSecretHeader h => WithSecretHeader h
  | OptSecretParam p => WithSecretParam p
  | OptTransport tr => WithTransport tr
  end.

(** The non-empty header names among [os], in order. *)
Definition addedHeaders (os : list Opt) : list string :=
  os ≫= λ o,
    match o with
    | OptSecretHeader h => if String.eqb h "" then [] else [h]
    | _ => []
    end.

(** The non-empty parameter names among [os], in order. *)
Definition addedParams (os : list Opt) : list string :=
  os ≫= λ o,
    match o with
    | OptSecretParam p => if String.eqb p "" then [] else [p]
    | _ => []
    end.

(** The transport the last [WithTransport] among [os] sets, [tr] when
    there is none. *)
Definition lastTransport (tr : option RoundTripper) (os : list Opt) : option RoundTripper :=
  foldl (λ tr o, match o with OptTransport tr' => tr' | _ => tr end) tr os.

(** Two policies name the same secrets, whatever the order and the
    repetitions. *)
Definition sameSecrets (t1 t2 : CurlTransport) : Prop :=
  (∀ s, s ∈ SecretHeaders t1 ↔ s ∈ SecretHeaders t2)
  ∧ (∀ p, p ∈ SecretParams t1 ↔ p ∈ SecretParams t2).

(** ** Chained transports *)

(** A [CurlTransport] used as the delegate of another: what its
    [RoundTrip] answers. *)
Definition asRoundTripper (D : RoundTripper) (t : CurlTransport) : RoundTripper :=
  λ req, (RoundTrip D t req).1.1.

Definition sampleChunked : Reader :=
  ReadMore (list_byte_of_string "{lo") (ReadMore (list_byte_of_string "gin:l'")
    (ReadLast (list_byte_of_string "a}") io_EOF)).

Definition sampleDelegate : RoundTripper :=
  λ req, (Some {| Status := Method req; ResponseBody := [] |}, None).

(** ** Counting bytes *)

(** How often the byte [c] occurs in [s]. *)
Fixpoint countByte (c : ascii) (s : string) : nat :=
  match s with
  | EmptyString => 0
  | String d rest => (if Ascii.eqb d c then 1 else 0) + countByte c rest
  end.

(** ** Parsing an encoded query *)

(** Whether the byte [c] occurs in [s]. *)
Fixpoint hasByte (c : ascii) (s : string) : bool :=
  match s with
  | EmptyString => false
  | String d rest => Ascii.eqb d c || hasByte c rest
  end.

(** The text [Values.Encode] writes for one value [x] of the key [k]. *)
Definition pairText (k x : string) : string := QueryEscape k +:+ "=" +:+ QueryEscape x.

(** The value list of [j] in [v], when it is not empty. *)
Definition valuesOf (v : Values) (j : string) : option (list string) :=
  match v !! j with
  | Some (x :: l) => Some (x :: l)
  | _ => None
  end.

(** No parameter of [v] has an empty list of values. *)
Definition noEmptyValues (v : Values) : Prop :=
  ∀ k l, v !! k = Some l → l ≠ [].

(** ** Folding of letter case *)


(** A piece of a query that the loop of [parseQuery] skips. *)
Definition skippedPiece (piece : string) : bool :=
  Contains piece ";"
  || String.eqb piece ""
  || negb (bool_decide (is_Some (QueryUnescape (Cut piece "=").1.1)))
  || negb (bool_decide (is_Some (QueryUnescape (Cut piece "=").1.2))).

(** ** A request in the store *)

(** The URL objects when [sanitizeURL] returns from a call on [uri]:
    those of [σ], and the copy it worked on. *)
Definition urlsAfter (t : CurlTransport) (uri : option loc) (σ : Store) : gmap loc URL :=
  match uri with
  | None => urlObjs σ
  | Some uri =>
      match urlObjs σ !! uri with
      | None => urlObjs σ
      | Some u => <[fresh (dom (urlObjs σ)) := (sanitizeLoop t u).2]> (urlObjs σ)
      end
  end.

(** A request at location 1 whose URL, at 2, carries a secret, with its
    header at 3 and its body at 4, and the same request as a record. *)
Definition sampleStore : Store :=
  {| urlObjs := {[ 2%positive := plainURL "/foo" "x=1&client_secret=abc" ]};
     headerObjs := {[ 3%positive := sampleHeader ]};
     bodyObjs := {[ 4%positive := sampleBody ]};
     requestObjs :=
       {[ 1%positive := {| oMethod := "POST"; oURL := Some 2%positive;
                           oHeader := Some 3%positive; oBody := Some 4%positive |} ]} |}.

Definition sampleStored : Request :=
  {| Method := "POST";
     ReqURL := Some (plainURL "/foo" "x=1&client_secret=abc");
     ReqHeader := sampleHeader;
     Body := Some sampleBody |}.

(** * Properties *)

(** ** [escapeSingleQuote] on the repository's tests *)

Example escapeSingleQuote_one_quote :
  escapeSingleQuote "I said, I'd like that." = "I said, I\'d like that.".
Proof. reflexivity. Qed.

Example escapeSingleQuote_multiple_quotes :
  escapeSingleQuote "'I'd like that.'" = "\'I\'d like that.\'".
Proof. reflexivity. Qed.

(** ** Strings *)

Lemma string_app_cons (x : ascii) (a b : string) :
  String x a +:+ b = String x (a +:+ b).
Proof. reflexivity. Qed.

Lemma string_app_nil_r (s : string) : s +:+ "" = s.
Proof. induction s as [|c s IH]; [done|]. by rewrite string_app_cons, IH. Qed.

Lemma string_app_assoc (a b c : string) : (a +:+ b) +:+ c = a +:+ b +:+ c.
Proof.
  induction a as [|x a IH]; [done|]. by rewrite !string_app_cons, IH.
Qed.

Lemma Join_cons (e : string) (rest : list string) (sep : string) :
  rest ≠ [] → Join (e :: rest) sep = e +:+ sep +:+ Join rest sep.
Proof. by destruct rest. Qed.

Lemma Join_concat (lines : list string) (sep : string) :
  Join lines sep = String.concat sep lines.
Proof.
  induction lines as [|a lines IH]; [done|].
  destruct lines as [|b lines]; [done|].
  rewrite Join_cons by done. cbn [String.concat]. by rewrite IH.
Qed.

Lemma Join_commandOf (lines : list string) : Join lines lineSep = commandOf lines.
Proof. apply Join_concat. Qed.

(** ** [sort.Strings] *)

Lemma sort_Strings_Sorted (x : list string) : Sorted String.le (sort_Strings x).
Proof. apply (Sorted_merge_sort String.le). Qed.

Lemma sort_Strings_Permutation (x : list string) : sort_Strings x ≡ₚ x.
Proof. apply merge_sort_Permutation. Qed.

(** The result depends on the elements only, not on their order. *)
Lemma sort_Strings_order_irrelevant (x y : list string) :
  x ≡ₚ y → sort_Strings x = sort_Strings y.
Proof.
  intros Hxy. apply (Sorted_unique String.le); try apply sort_Strings_Sorted.
  by rewrite !sort_Strings_Permutation.
Qed.

Example sort_Strings_on_rendered_text :
  sort_Strings ["-H 'A: x'"; "-H 'A-B: y'"] = ["-H 'A-B: y'"; "-H 'A: x'"]
  ∧ sort_Strings ["A"; "A-B"] = ["A"; "A-B"].
Proof. split; vm_compute; reflexivity. Qed.

(** ** The header loop *)

Lemma isSecret_true (secrets : list string) (key : string) :
  isSecret secrets key = true ↔ ∃ secret, secret ∈ secrets ∧ EqualFold key secret = true.
Proof.
  unfold isSecret. rewrite existsb_exists.
  split; intros (s & Hs & He); exists s; split; try done; by apply list_elem_of_In.
Qed.

Lemma redactSecret_spec (secrets : list string) (key : string) (headers : list string) :
  redactSecret secrets key headers =
    (isSecret secrets key,
     if isSecret secrets key then headers ++ ["-H '" +:+ key +:+ ": <REDACTED>'"]
     else headers).
Proof.
  induction secrets as [|s secrets IH]; [done|].
  cbn. destruct (EqualFold key s); [done|]. exact IH.
Qed.

Lemma headerStep_spec (t : CurlTransport) (headers : list string) (kv : string * list string) :
  headerStep t headers kv = headers ++ [headerLine t kv].
Proof.
  destruct kv as [k v]. unfold headerStep, headerLine.
  rewrite redactSecret_spec. cbn. rewrite Join_concat. by destruct (isSecret _ k).
Qed.

Lemma header_loop_spec (t : CurlTransport) (headers : list string)
  (entries : list (string * list string)) :
  foldl (headerStep t) headers entries = headers ++ (headerLine t <$> entries).
Proof.
  revert headers. induction entries as [|kv entries IH]; intros headers; cbn.
  - by rewrite app_nil_r.
  - rewrite IH, headerStep_spec, <-app_assoc. done.
Qed.

Lemma header_loop_sorted (t : CurlTransport) (h : Header)
  (entries : list (string * list string)) :
  rangeOrder h entries →
  sort_Strings (foldl (headerStep t) [] entries) = headerLines t h.
Proof.
  intros Hperm. rewrite header_loop_spec. cbn.
  apply sort_Strings_order_irrelevant. by rewrite Hperm.
Qed.

(** ** Reading a body *)

Lemma ReadAll_loop_spec (b : list byte) (r : Reader) :
  ReadAll_loop b r =
    (b ++ readerBytes r,
     match readerErr r with io_EOF => None | e => Some e end,
     ReadLast [] (readerErr r)).
Proof.
  revert b. induction r as [p rest IH|p err]; intros b; cbn.
  - by rewrite IH, <-app_assoc.
  - by destruct err.
Qed.

Lemma ReadAll_spec (r : Reader) :
  ReadAll r =
    (readerBytes r,
     match readerErr r with io_EOF => None | e => Some e end,
     ReadLast [] (readerErr r)).
Proof. unfold ReadAll. by rewrite ReadAll_loop_spec. Qed.

Lemma ReadAll_NewBuffer (buf : list byte) :
  ReadAll (NewBuffer buf) = (buf, None, ReadLast [] io_EOF).
Proof.
  rewrite ReadAll_spec. destruct buf as [|x buf]; cbn; [done|].
  by rewrite app_nil_r.
Qed.

(** ** The rendering as a whole *)

Lemma dumpRequestAsCurlIn_spec (entries : list (string * list string))
  (t : CurlTransport) (req : Request) :
  rangeOrder (ReqHeader req) entries →
  dumpRequestAsCurlIn entries t req =
    match Body req with
    | None =>
        (Join (headLines t req ++ headerLines t (ReqHeader req)) lineSep, None, req)
    | Some body =>
        match readerErr body with
        | io_EOF =>
            (Join ((headLines t req ++ headerLines t (ReqHeader req))
                   ++ [bodyLine (readerBytes body)]) lineSep,
             None, with_Body req (Some (NewBuffer (readerBytes body))))
        | e => ("", Some e, with_Body req (Some (ReadLast [] e)))
        end
    end.
Proof.
  intros Hperm. unfold dumpRequestAsCurlIn.
  rewrite (header_loop_sorted t _ _ Hperm).
  destruct (Body req) as [body|]; [|done].
  rewrite ReadAll_spec. by destruct (readerErr body).
Qed.

(** Without the assumption on [entries], for what does not depend on
    the header lines. *)
Lemma dumpRequestAsCurlIn_body (entries : list (string * list string))
  (t : CurlTransport) (req : Request) (body : Reader) :
  Body req = Some body →
  dumpRequestAsCurlIn entries t req =
    match readerErr body with
    | io_EOF =>
        (Join ((headLines t req ++ sort_Strings (foldl (headerStep t) [] entries))
               ++ [bodyLine (readerBytes body)]) lineSep,
         None, with_Body req (Some (NewBuffer (readerBytes body))))
    | e => ("", Some e, with_Body req (Some (ReadLast [] e)))
    end.
Proof.
  intros Hbody. unfold dumpRequestAsCurlIn. rewrite Hbody, ReadAll_spec.
  by destruct (readerErr body).
Qed.

Lemma ReadAll_ok_inv (r : Reader) (buf : list byte) (drained : Reader) :
  ReadAll r = (buf, None, drained) →
  readerErr r = io_EOF ∧ buf = readerBytes r.
Proof.
  rewrite ReadAll_spec. destruct (readerErr r); intros; by simplify_eq.
Qed.

Lemma ReadAll_err_inv (r : Reader) (buf : list byte) (e : error) (drained : Reader) :
  ReadAll r = (buf, Some e, drained) →
  readerErr r = e ∧ e ≠ io_EOF ∧ drained = ReadLast [] e.
Proof.
  rewrite ReadAll_spec. destruct (readerErr r); intros; by simplify_eq.
Qed.

(** C1. When the body of a request reads to its end without error,
    rendering succeeds and the request it leaves has as its body a new
    reader, built from the bytes read alone, that delivers exactly
    those bytes; [RoundTrip] hands the delegate the request with that
    body and returns what the delegate answers to it. *)
Theorem render_restores_body (entries : list (string * list string))
  (t : CurlTransport) (req : Request) (body : Reader) (buf : list byte) (drained : Reader) :
  Body req = Some body →
  ReadAll body = (buf, None, drained) →
  ∃ s,
    dumpRequestAsCurlIn entries t req = (s, None, with_Body req (Some (NewBuffer buf)))
    ∧ Body (dumpRequestAsCurlIn entries t req).2 = Some (NewBuffer buf)
    ∧ (ReadAll (NewBuffer buf)).1 = (ReadAll body).1
    ∧ (ReadAll (NewBuffer buf)).1 = (buf, None)
    ∧ ∀ D,
        (RoundTripIn D entries t req).2
        = [Logged s; Sent (with_Body req (Some (NewBuffer buf)))]
        ∧ ∃ sent,
            (RoundTripIn D entries t req).2 = [Logged s; Sent sent]
            ∧ Body sent = Some (NewBuffer buf)
            ∧ Method sent = Method req
            ∧ ReqURL sent = ReqURL req
            ∧ ReqHeader sent = ReqHeader req
            ∧ (RoundTripIn D entries t req).1.1 = transport D t sent.
Proof.
  intros Hbody Hread.
  destruct (ReadAll_ok_inv _ _ _ Hread) as [Heof ->].
  pose proof (dumpRequestAsCurlIn_body entries t req body Hbody) as Hdump.
  rewrite Heof in Hdump. eexists. split; [exact Hdump|].
  rewrite Hdump, Hread, ReadAll_NewBuffer. cbn [fst snd Body with_Body].
  repeat split.
  - unfold RoundTripIn. by rewrite Hdump.
  - eexists. unfold RoundTripIn. rewrite Hdump. cbn [fst snd]. by repeat split.
Qed.

(** C4. When the body of a request fails to read, rendering returns the
    empty string and the very error the reader returned, and
    [RoundTrip] returns no response and that error, having called
    neither the logger nor the delegate. *)
Theorem render_fails_on_read_error (entries : list (string * list string))
  (t : CurlTransport) (req : Request) (body : Reader) (buf : list byte) (e : error)
  (drained : Reader) :
  Body req = Some body →
  ReadAll body = (buf, Some e, drained) →
  (dumpRequestAsCurlIn entries t req).1 = ("", Some e)
  ∧ e = readerErr body
  ∧ ∀ D, (RoundTripIn D entries t req).1.1 = (None, Some e)
         ∧ (RoundTripIn D entries t req).2 = [].
Proof.
  intros Hbody Hread.
  destruct (ReadAll_err_inv _ _ _ _ Hread) as (He & Hne & ->).
  pose proof (dumpRequestAsCurlIn_body entries t req body Hbody) as Hdump.
  rewrite He in Hdump.
  assert (dumpRequestAsCurlIn entries t req
          = ("", Some e, with_Body req (Some (ReadLast [] e)))) as Hfail
    by (destruct e; done).
  rewrite Hfail. split; [done|]. split; [done|].
  intros D. unfold RoundTripIn. by rewrite Hfail.
Qed.

(** C5. A command that rendering returns is the line of the method, the
    sanitized URL (empty when the request has none), the header lines,
    sorted as rendered text, and the body line when the request has a
    body, joined by blank, backslash, newline and two blanks. *)
Theorem render_line_structure (entries : list (string * list string))
  (t : CurlTransport) (req : Request) :
  rangeOrder (ReqHeader req) entries →
  (dumpRequestAsCurlIn entries t req).1.2 = None →
  ∃ headers bodyLines,
    (dumpRequestAsCurlIn entries t req).1.1
      = String.concat (String " " (String "\" (String "010" (String " " (String " " "")))))
          (["curl -X " +:+ Method req; sanitizeURL t (ReqURL req)] ++ headers ++ bodyLines)
    ∧ (ReqURL req = None → sanitizeURL t (ReqURL req) = "")
    ∧ Sorted String.le headers
    ∧ headers ≡ₚ headerLine t <$> map_to_list (ReqHeader req)
    ∧ match Body req with
      | None => bodyLines = []
      | Some body =>
          bodyLines = ["-d '" +:+ escapeSingleQuote (string_of_list_byte (readerBytes body)) +:+ "'"]
      end
    ∧ lineSep = String " " (String "\" (String "010" (String " " (String " " "")))).
Proof.
  intros Hperm Hok. rewrite (dumpRequestAsCurlIn_spec _ _ _ Hperm) in Hok |- *.
  exists (headerLines t (ReqHeader req)).
  exists (match Body req with
          | None => []
          | Some body => [bodyLine (readerBytes body)]
          end).
  split; [|split; [by intros ->|split; [apply sort_Strings_Sorted|
           split; [apply sort_Strings_Permutation|split; [|done]]]]].
  - fold (commandOf (["curl -X " +:+ Method req; sanitizeURL t (ReqURL req)]
                     ++ headerLines t (ReqHeader req)
                     ++ match Body req with
                        | None => []
                        | Some body => [bodyLine (readerBytes body)]
                        end)).
    rewrite <-Join_commandOf. unfold headLines. destruct (Body req) as [body|].
    + destruct (readerErr body); [|done]. by rewrite <-app_assoc.
    + by rewrite app_nil_r.
  - by destruct (Body req).
Qed.

(** C8. Rendering the same request under the same policy gives the same
    result, whatever the order in which the header map is ranged over. *)
Theorem render_deterministic (entries1 entries2 : list (string * list string))
  (t : CurlTransport) (req : Request) :
  rangeOrder (ReqHeader req) entries1 →
  rangeOrder (ReqHeader req) entries2 →
  dumpRequestAsCurlIn entries1 t req = dumpRequestAsCurlIn entries2 t req.
Proof.
  intros H1 H2. by rewrite !dumpRequestAsCurlIn_spec.
Qed.

(** ** The loop of [sanitizeURL] *)

Lemma hasValue_true (params : Values) (p : string) :
  hasValue params p = true ↔ Values_Get params p ≠ "".
Proof.
  unfold hasValue. rewrite negb_true_iff. apply String.eqb_neq.
Qed.

Lemma hasValue_redactStep (params : Values) (p k : string) :
  hasValue (redactStep params p) k = hasValue params k.
Proof.
  unfold redactStep. destruct (hasValue params p) eqn:Hp; [|done].
  unfold hasValue, Values_Get, Values_Set in *.
  destruct (decide (p = k)) as [->|Hne].
  - by rewrite lookup_insert_eq, Hp.
  - by rewrite lookup_insert_ne.
Qed.

Lemma hasValue_redacted (l : list string) (params : Values) (k : string) :
  hasValue (foldl redactStep params l) k = hasValue params k.
Proof.
  revert params. induction l as [|p l IH]; intros params; [done|].
  cbn. by rewrite IH, hasValue_redactStep.
Qed.

Lemma redacted_lookup (l : list string) (params : Values) (k : string) :
  foldl redactStep params l !! k =
    if bool_decide (k ∈ l) && hasValue params k then Some ["REDACTED"]
    else params !! k.
Proof.
  revert params. induction l as [|p l IH]; intros params.
  - cbn. rewrite bool_decide_eq_false_2; [done|]. by intros ?%elem_of_nil.
  - cbn [foldl]. rewrite IH, hasValue_redactStep.
    destruct (decide (k = p)) as [->|Hne].
    + rewrite (bool_decide_eq_true_2 (p ∈ p :: l)) by apply list_elem_of_here.
      unfold redactStep, Values_Set.
      destruct (hasValue params p) eqn:Hp; cbn.
      * rewrite lookup_insert_eq. by destruct (bool_decide _).
      * by rewrite andb_false_r.
    + assert (bool_decide (k ∈ p :: l) = bool_decide (k ∈ l)) as ->.
      { apply bool_decide_ext. rewrite elem_of_cons.
        split; [intros [?|?]; [congruence|done] | by right]. }
      destruct (bool_decide (k ∈ l) && hasValue params k); [done|].
      unfold redactStep, Values_Set. destruct (hasValue params p); [|done].
      by rewrite lookup_insert_ne.
Qed.

Lemma redacted_none (l : list string) (params : Values) :
  existsb (hasValue params) l = false → foldl redactStep params l = params.
Proof.
  induction l as [|p l IH]; [done|]. cbn.
  intros [Hp Hl]%orb_false_iff. unfold redactStep at 2. rewrite Hp. auto.
Qed.

Lemma with_RawQuery_twice (u : URL) (q1 q2 : string) :
  with_RawQuery (with_RawQuery u q1) q2 = with_RawQuery u q2.
Proof. done. Qed.

Lemma sanitize_loop_spec (l : list string) (params : Values) (newURL : URL) :
  foldl sanitizeStep (params, newURL) l =
    (foldl redactStep params l,
     if existsb (hasValue params) l
     then with_RawQuery newURL (Values_Encode (foldl redactStep params l))
     else newURL).
Proof.
  revert params newURL. induction l as [|p l IH]; intros params newURL; [done|].
  cbn [foldl existsb]. unfold sanitizeStep at 2, redactStep at 2 4. fold (hasValue params p).
  destruct (hasValue params p) eqn:Hp; cbn [orb].
  - rewrite IH.
    destruct (existsb (hasValue (Values_Set params p "REDACTED")) l) eqn:Hl.
    + by rewrite with_RawQuery_twice.
    + by rewrite (redacted_none _ _ Hl).
  - by rewrite IH.
Qed.

Lemma sanitizeURL_spec (t : CurlTransport) (u : URL) :
  sanitizeURL t (Some u) =
    URL_String
      (if redactsSome t (URL_Query u)
       then with_RawQuery u (Values_Encode (redactedParams t (URL_Query u)))
       else u).
Proof.
  unfold sanitizeURL, sanitizeLoop. by rewrite sanitize_loop_spec.
Qed.

Lemma redactsSome_true (t : CurlTransport) (params : Values) :
  redactsSome t params = true ↔
  ∃ p, p ∈ SecretParams t ∧ Values_Get params p ≠ "".
Proof.
  unfold redactsSome. rewrite existsb_exists.
  split; intros (p & Hp & Hv); exists p;
    (split; [by apply list_elem_of_In | by apply hasValue_true]).
Qed.

Lemma redactedParams_lookup (t : CurlTransport) (params : Values) (k : string) :
  redactedParams t params !! k =
    if bool_decide (k ∈ SecretParams t) && hasValue params k then Some ["REDACTED"]
    else params !! k.
Proof. apply redacted_lookup. Qed.

Lemma redactedParams_is_Some (t : CurlTransport) (params : Values) (k : string) :
  is_Some (redactedParams t params !! k) ↔ is_Some (params !! k).
Proof.
  rewrite redactedParams_lookup.
  destruct (bool_decide (k ∈ SecretParams t)); cbn [andb]; [|done].
  destruct (hasValue params k) eqn:Hv; [|done].
  apply hasValue_true in Hv. unfold Values_Get in Hv.
  destruct (params !! k) as [l|]; [|done]. split; eauto.
Qed.

(** ** The keys of an encoded query *)

Lemma sortedKeys_Sorted (v : Values) : Sorted String.le (sortedKeys v).
Proof. apply sort_Strings_Sorted. Qed.

Lemma sortedKeys_Permutation (v : Values) : sortedKeys v ≡ₚ (map_to_list v).*1.
Proof. apply sort_Strings_Permutation. Qed.

Lemma sortedKeys_NoDup (v : Values) : NoDup (sortedKeys v).
Proof. rewrite sortedKeys_Permutation. apply NoDup_fst_map_to_list. Qed.

Lemma elem_of_sortedKeys (v : Values) (k : string) :
  k ∈ sortedKeys v ↔ is_Some (v !! k).
Proof.
  rewrite sortedKeys_Permutation, list_elem_of_fmap. split.
  - intros ([k' x] & -> & Hin). apply elem_of_map_to_list in Hin. by exists x.
  - intros [x Hx]. exists (k, x). split; [done|]. by apply elem_of_map_to_list.
Qed.

(** ** [QueryEscape] and [QueryUnescape] *)

Lemma QueryEscape_cons (c : ascii) (s : string) :
  QueryEscape (String c s) = escapeByte c +:+ QueryEscape s.
Proof.
  unfold escapeByte. cbn [QueryEscape].
  destruct (Ascii.eqb c " "); [done|]. by destruct (shouldEscape c).
Qed.

Lemma QueryUnescape_escapeByte (c : ascii) (r : string) :
  QueryUnescape (escapeByte c +:+ r) = String c <$> QueryUnescape r.
Proof. destruct c as [[] [] [] [] [] [] [] []]; reflexivity. Qed.

(** Unescaping gives back what was escaped. *)
Lemma QueryUnescape_QueryEscape (s : string) : QueryUnescape (QueryEscape s) = Some s.
Proof.
  induction s as [|c s IH]; [done|].
  by rewrite QueryEscape_cons, QueryUnescape_escapeByte, IH.
Qed.

Lemma QueryEscape_inj (s1 s2 : string) : QueryEscape s1 = QueryEscape s2 → s1 = s2.
Proof.
  intros Heq. apply (inj Some).
  by rewrite <-!QueryUnescape_QueryEscape, Heq.
Qed.

(** ** The constructor and its options, on the repository's tests *)

Example New_no_opts :
  New [] = {| SecretHeaders := ["authorization"]; SecretParams := ["client_secret"];
              Transport := None |}.
Proof. reflexivity. Qed.

Example WithSecretHeader_empty : New [WithSecretHeader ""] = New [].
Proof. reflexivity. Qed.

Example WithSecretHeader_new :
  New [WithSecretHeader "Do-Not-Show"]
  = {| SecretHeaders := ["authorization"; "Do-Not-Show"]; SecretParams := ["client_secret"];
       Transport := None |}.
Proof. reflexivity. Qed.

Example WithSecretParam_empty : New [WithSecretParam ""] = New [].
Proof. reflexivity. Qed.

Example WithSecretParam_duplicate :
  New [WithSecretParam "client_secret"]
  = {| SecretHeaders := ["authorization"]; SecretParams := ["client_secret"; "client_secret"];
       Transport := None |}.
Proof. reflexivity. Qed.

Example WithTransport_set (tr : RoundTripper) :
  New [WithTransport (Some tr)]
  = {| SecretHeaders := ["authorization"]; SecretParams := ["client_secret"];
       Transport := Some tr |}.
Proof. reflexivity. Qed.

(** ** Redaction of query parameters *)

Example sanitizeURL_no_secret_params :
  sanitizeURL {| SecretHeaders := []; SecretParams := []; Transport := None |}
    (Some (plainURL "http://localhost:8080/api/endpoint" ""))
  = "http://localhost:8080/api/endpoint".
Proof. reflexivity. Qed.

Example sanitizeURL_nil (t : CurlTransport) : sanitizeURL t None = "".
Proof. reflexivity. Qed.

Example sanitizeURL_default_with_usage :
  sanitizeURL {| SecretHeaders := []; SecretParams := ["client_secret"]; Transport := None |}
    (Some (plainURL "http://localhost:8080/api/endpoint"
             "v=1&client_secret=DO-NOT-DIVULGE&x=abc"))
  = "http://localhost:8080/api/endpoint?client_secret=REDACTED&v=1&x=abc".
Proof. vm_compute. reflexivity. Qed.

(** C2. The names in [SecretParams] are looked up as they are written:
    under the default policy a parameter named [Client_Secret], which
    folds to the entry [client_secret], keeps its value in the rendered
    URL. *)
Theorem sanitizeURL_param_name_case :
  EqualFoldASCII "Client_Secret" "client_secret" = true
  ∧ SecretParams (New []) = ["client_secret"]
  ∧ URL_Query (plainURL "/foo" "Client_Secret=abc123") !! "Client_Secret" = Some ["abc123"]
  ∧ sanitizeURL (New []) (Some (plainURL "/foo" "Client_Secret=abc123"))
    = "/foo?Client_Secret=abc123"
  ∧ sanitizeURL (New []) (Some (plainURL "/foo" "client_secret=abc123"))
    = "/foo?client_secret=REDACTED".
Proof. repeat split; vm_compute; reflexivity. Qed.

(** ** The rendered URL, byte for byte *)

Lemma string_app_empty (a b : string) : a +:+ b = "" → a = "" ∧ b = "".
Proof. by destruct a. Qed.

Lemma Join_nonempty (l : list string) (sep x : string) :
  x ∈ l → x ≠ "" → Join l sep ≠ "".
Proof.
  induction l as [|a l IH]; intros Hin Hx; [by apply elem_of_nil in Hin|].
  destruct l as [|b l].
  - apply list_elem_of_singleton in Hin as ->. done.
  - rewrite Join_cons by done. intros [-> [_ Hrest]%string_app_empty]%string_app_empty.
    apply elem_of_cons in Hin as [->|Hin]; [done|]. by apply IH.
Qed.

Lemma URL_String_raw (u : URL) :
  URL_String u
  = Location u
    +:+ (if ForceQuery u || negb (String.eqb (RawQuery u) "") then "?" +:+ RawQuery u else "")
    +:+ fragmentText u.
Proof. reflexivity. Qed.

Lemma URL_String_with_RawQuery (u : URL) (q : string) :
  q ≠ "" →
  URL_String (with_RawQuery u q) = Location u +:+ "?" +:+ q +:+ fragmentText u.
Proof.
  intros Hq. rewrite URL_String_raw. unfold fragmentText. cbn [Location ForceQuery RawQuery Fragment with_RawQuery].
  rewrite (proj2 (String.eqb_neq q "") Hq), orb_true_r.
  by rewrite string_app_assoc.
Qed.

Lemma Values_Get_hd (params : Values) (k : string) :
  Values_Get params k = hd "" (default [] (params !! k)).
Proof. unfold Values_Get. by destruct (params !! k) as [[|x l]|]. Qed.

Lemma redactedParams_values (t : CurlTransport) (params : Values) (k : string) :
  default [] (redactedParams t params !! k) = renderedValues t params k.
Proof.
  rewrite redactedParams_lookup. unfold renderedValues, hasValue.
  rewrite Values_Get_hd. by destruct (_ && _).
Qed.

Lemma Values_Encode_redacted (t : CurlTransport) (params : Values) :
  Values_Encode (redactedParams t params)
  = String.concat "&"
      (sortedKeys (redactedParams t params)
       ≫= λ k, renderedPairs k (renderedValues t params k)).
Proof.
  unfold Values_Encode. rewrite Join_concat. f_equal.
  apply list_bind_ext; [|done]. intros k. unfold encodeKey, renderedPairs.
  by rewrite redactedParams_values.
Qed.

Lemma Values_Encode_nonempty (v : Values) (k x : string) (l : list string) :
  v !! k = Some (x :: l) → Values_Encode v ≠ "".
Proof.
  intros Hk. unfold Values_Encode.
  apply (Join_nonempty _ _ (QueryEscape k +:+ "=" +:+ QueryEscape x)).
  - apply list_elem_of_bind. exists k. split.
    + unfold encodeKey. rewrite Hk. apply list_elem_of_here.
    + apply elem_of_sortedKeys. eauto.
  - intros [_ [? _]%string_app_empty]%string_app_empty. done.
Qed.

(** The URL rendered when the loop redacts something. *)
Lemma sanitizeURL_redacting (t : CurlTransport) (u : URL) :
  redactsSome t (URL_Query u) = true →
  sanitizeURL t (Some u)
  = Location u +:+ "?"
    +:+ String.concat "&"
          (sortedKeys (redactedParams t (URL_Query u))
           ≫= λ k, renderedPairs k (renderedValues t (URL_Query u) k))
    +:+ fragmentText u.
Proof.
  intros Hsome. rewrite sanitizeURL_spec, Hsome.
  apply redactsSome_true in Hsome as (p & Hp & Hv).
  assert (redactedParams t (URL_Query u) !! p = Some ["REDACTED"]) as Hred.
  { rewrite redactedParams_lookup, (proj2 (hasValue_true _ p) Hv).
    by rewrite bool_decide_eq_true_2. }
  rewrite URL_String_with_RawQuery by (by eapply Values_Encode_nonempty).
  by rewrite Values_Encode_redacted.
Qed.

(** A parameter that the loop redacts stands once in the rendered
    query, as [name=REDACTED]. *)
Lemma secret_param_rendered_once (t : CurlTransport) (u : URL) (p v : string)
  (vs : list string) :
  p ∈ SecretParams t →
  URL_Query u !! p = Some (v :: vs) →
  v ≠ "" →
  ∃ before after,
    Sorted String.le (before ++ p :: after)
    ∧ NoDup (before ++ p :: after)
    ∧ (∀ k, k ∈ before ++ p :: after ↔ is_Some (URL_Query u !! k))
    ∧ (∀ k, k ∈ before ++ after → QueryEscape k ≠ QueryEscape p)
    ∧ sanitizeURL t (Some u)
      = Location u +:+ "?"
        +:+ String.concat "&"
              ((before ≫= λ k, renderedPairs k (renderedValues t (URL_Query u) k))
               ++ [QueryEscape p +:+ "=REDACTED"]
               ++ (after ≫= λ k, renderedPairs k (renderedValues t (URL_Query u) k)))
        +:+ fragmentText u.
Proof.
  intros Hp Hlook Hv.
  assert (hasValue (URL_Query u) p = true) as Hhas.
  { apply hasValue_true. unfold Values_Get. by rewrite Hlook. }
  assert (redactsSome t (URL_Query u) = true) as Hsome.
  { apply redactsSome_true. exists p. split; [done|]. by apply hasValue_true. }
  set (params := redactedParams t (URL_Query u)).
  assert (p ∈ sortedKeys params) as Hin.
  { apply elem_of_sortedKeys, redactedParams_is_Some. rewrite Hlook. eauto. }
  apply list_elem_of_split in Hin as (before & after & Hsplit).
  pose proof (sortedKeys_NoDup params) as Hnodup.
  pose proof (sortedKeys_Sorted params) as Hsorted.
  rewrite Hsplit in Hnodup, Hsorted.
  exists before, after. split; [done|]. split; [done|]. split; [|split].
  - intros k. rewrite <-Hsplit, elem_of_sortedKeys. apply redactedParams_is_Some.
  - intros k Hk Heq%QueryEscape_inj. subst k.
    apply NoDup_app in Hnodup as (_ & Hbefore & Hafter%NoDup_cons_1_1).
    apply elem_of_app in Hk as [Hb|Ha]; [|done].
    apply (Hbefore _ Hb). apply list_elem_of_here.
  - rewrite (sanitizeURL_redacting t u Hsome). fold params.
    rewrite Hsplit, bind_app, bind_cons. do 4 f_equal.
    unfold renderedValues at 2. rewrite (bool_decide_eq_true_2 _ Hp), Hlook.
    change (hd "" (default [] (Some (v :: vs)))) with v.
    by rewrite (proj2 (String.eqb_neq v "") Hv).
Qed.

(** C7, as stated, fails: with no secret parameter in the query, the
    query is rendered in the order of the request. *)
Lemma sanitizeURL_keeps_request_order :
  RawQuery (plainURL "/foo" "b=1&a=2") ≠ ""
  ∧ sanitizeURL (New []) (Some (plainURL "/foo" "b=1&a=2")) = "/foo?b=1&a=2"
  ∧ Values_Encode (URL_Query (plainURL "/foo" "b=1&a=2")) = "a=2&b=1"
  ∧ sanitizeURL (New []) (Some (plainURL "/foo" "b=1&a=2")) ≠ "/foo?a=2&b=1"
  ∧ ¬ queryInCanonicalOrder (New []) (plainURL "/foo" "b=1&a=2").
Proof.
  split; [done|]. split; [by vm_compute|]. split; [by vm_compute|].
  split; [vm_compute; discriminate|].
  unfold queryInCanonicalOrder. vm_compute. discriminate.
Qed.

(** C7, amended.  When some entry of [SecretParams] is the name of a
    parameter whose first value is not empty, the rendered URL holds,
    after the question mark, the parameters with their keys in sorted
    order, each key once with its values in their order (the one
    marker for a redacted key), joined by [&].  When every parameter
    whose name is an entry of [SecretParams], or folds to one, is
    absent or has an empty first value, the URL is rendered with its
    raw query as the request has it. *)
Theorem sanitizeURL_query_order (t : CurlTransport) (u : URL) :
  ((∃ p, p ∈ SecretParams t ∧ Values_Get (URL_Query u) p ≠ "") →
   ∃ keys,
     Sorted String.le keys
     ∧ NoDup keys
     ∧ (∀ k, k ∈ keys ↔ is_Some (URL_Query u !! k))
     ∧ sanitizeURL t (Some u)
       = Location u +:+ "?"
         +:+ String.concat "&"
               (keys ≫= λ k, renderedPairs k (renderedValues t (URL_Query u) k))
         +:+ fragmentText u)
  ∧ ((∀ k p, p ∈ SecretParams t → k = p ∨ EqualFold k p = true →
             Values_Get (URL_Query u) k = "") →
     sanitizeURL t (Some u)
     = Location u
       +:+ (if ForceQuery u || negb (String.eqb (RawQuery u) "")
            then "?" +:+ RawQuery u else "")
       +:+ fragmentText u).
Proof.
  split.
  - intros Hsome%redactsSome_true.
    exists (sortedKeys (redactedParams t (URL_Query u))).
    split; [apply sortedKeys_Sorted|]. split; [apply sortedKeys_NoDup|].
    split; [|by apply sanitizeURL_redacting].
    intros k. rewrite elem_of_sortedKeys. apply redactedParams_is_Some.
  - intros Hnone. rewrite sanitizeURL_spec, <-URL_String_raw.
    destruct (redactsSome t (URL_Query u)) eqn:Hsome; [|done].
    apply redactsSome_true in Hsome as (p & Hp & Hv).
    destruct (Hv (Hnone p p Hp (or_introl eq_refl))).
Qed.

Example redacting_reorders_example :
  sanitizeURL (New []) (Some (plainURL "/foo" "x=1&client_secret=abc&b=2"))
  = "/foo?b=2&client_secret=REDACTED&x=1".
Proof. vm_compute. reflexivity. Qed.

(** C10. The names in [SecretParams] are looked up as they are
    written: under the default policy the parameter [Client_Secret],
    whose name folds to the entry [client_secret], keeps both its
    values in the rendered URL, while the two values of a parameter
    named exactly [client_secret] are replaced by the one marker. *)
Theorem sanitizeURL_multiple_values_name_case :
  EqualFoldASCII "Client_Secret" "client_secret" = true
  ∧ SecretParams (New []) = ["client_secret"]
  ∧ URL_Query (plainURL "/foo" "Client_Secret=a&Client_Secret=b") !! "Client_Secret"
    = Some ["a"; "b"]
  ∧ sanitizeURL (New []) (Some (plainURL "/foo" "Client_Secret=a&Client_Secret=b"))
    = "/foo?Client_Secret=a&Client_Secret=b"
  ∧ sanitizeURL (New []) (Some (plainURL "/foo" "client_secret=a&client_secret=b"))
    = "/foo?client_secret=REDACTED".
Proof. repeat split; vm_compute; reflexivity. Qed.

Example rendered_multiple_values_example :
  sanitizeURL (New []) (Some (plainURL "/foo" "x=1&client_secret=a&b=2&client_secret=b"))
  = "/foo?b=2&client_secret=REDACTED&x=1".
Proof. vm_compute. reflexivity. Qed.

(** ** Redaction of headers *)

Lemma headerLine_secret (t : CurlTransport) (k : string) (vs : list string) :
  isSecret (SecretHeaders t) k = true →
  headerLine t (k, vs) = "-H '" +:+ k +:+ ": <REDACTED>'".
Proof. unfold headerLine. cbn. by intros ->. Qed.

Lemma headerLine_plain (t : CurlTransport) (k : string) (vs : list string) :
  isSecret (SecretHeaders t) k = false →
  headerLine t (k, vs)
  = "-H '" +:+ k +:+ ": " +:+ escapeSingleQuote (String.concat ", " vs) +:+ "'".
Proof. unfold headerLine. cbn. by intros ->. Qed.

Lemma headerLine_elem_of (t : CurlTransport) (h : Header) (k : string) (vs : list string) :
  h !! k = Some vs → headerLine t (k, vs) ∈ headerLines t h.
Proof.
  intros Hk. unfold headerLines. rewrite sort_Strings_Permutation.
  apply list_elem_of_fmap. exists (k, vs). split; [done|].
  by apply elem_of_map_to_list.
Qed.

(** The values of a secret header do not reach the header lines. *)
Lemma headerLines_insert_secret (t : CurlTransport) (h : Header) (k : string)
  (vs vs' : list string) :
  h !! k = Some vs →
  isSecret (SecretHeaders t) k = true →
  headerLines t (<[k := vs']> h) = headerLines t h.
Proof.
  intros Hk Hsec. unfold headerLines. apply sort_Strings_order_irrelevant.
  rewrite <-(insert_delete_id h k vs Hk) at 2.
  rewrite <-(insert_delete_eq h).
  rewrite !map_to_list_insert by apply lookup_delete_eq.
  cbn. by rewrite !headerLine_secret.
Qed.

Lemma hasLine_header (entries : list (string * list string)) (t : CurlTransport)
  (req : Request) (line : string) :
  rangeOrder (ReqHeader req) entries →
  line ∈ headerLines t (ReqHeader req) →
  hasLine line (dumpRequestAsCurlIn entries t req).
Proof.
  intros Hperm (l1 & l2 & Hsplit)%list_elem_of_split.
  unfold hasLine. rewrite (dumpRequestAsCurlIn_spec _ _ _ Hperm), Hsplit.
  destruct (Body req) as [body|]; [destruct (readerErr body)|]; cbn [fst snd]; try done.
  - exists (headLines t req ++ l1), (l2 ++ [bodyLine (readerBytes body)]).
    by rewrite Join_commandOf, <-!app_assoc.
  - exists (headLines t req ++ l1), l2. by rewrite Join_commandOf, <-!app_assoc.
Qed.

(** C3, amended.  A header whose key folds to an entry of
    [SecretHeaders] is rendered as the line [-H 'key: <REDACTED>'],
    the key as the request has it, and the string and error that
    rendering returns are the same whatever values that header has: a
    request that differs only in the values of that header is rendered
    alike. *)
Theorem secret_header_redacted (entries entries' : list (string * list string))
  (t : CurlTransport) (req req' : Request) (k : string) (vs vs' : list string) :
  rangeOrder (ReqHeader req) entries →
  ReqHeader req !! k = Some vs →
  (∃ secret, secret ∈ SecretHeaders t ∧ EqualFold k secret = true) →
  Method req' = Method req →
  ReqURL req' = ReqURL req →
  Body req' = Body req →
  ReqHeader req' = <[k := vs']> (ReqHeader req) →
  rangeOrder (ReqHeader req') entries' →
  hasLine ("-H '" +:+ k +:+ ": <REDACTED>'") (dumpRequestAsCurlIn entries t req)
  ∧ (dumpRequestAsCurlIn entries' t req').1 = (dumpRequestAsCurlIn entries t req).1.
Proof.
  intros Hperm Hk Hsec%isSecret_true Hmethod Hurl Hbody Hheader Hperm'. split.
  - apply hasLine_header; [done|].
    rewrite <-(headerLine_secret t k vs Hsec). by apply headerLine_elem_of.
  - rewrite (dumpRequestAsCurlIn_spec entries' t req') by done.
    rewrite (dumpRequestAsCurlIn_spec entries t req) by done.
    unfold headLines. rewrite Hmethod, Hurl, Hbody, Hheader.
    rewrite (headerLines_insert_secret t _ k vs vs' Hk Hsec).
    destruct (Body req) as [body|]; [destruct (readerErr body)|]; done.
Qed.

(** ** Escaping of single quotes *)

Lemma escapeSingleQuote_cons (c : ascii) (s : string) :
  escapeSingleQuote (String c s) =
    if Ascii.eqb c "'"%char then String "\"%char (String "'"%char (escapeSingleQuote s))
    else String c (escapeSingleQuote s).
Proof. unfold escapeSingleQuote. cbn. by destruct (Ascii.eqb c "'"). Qed.

Lemma escapeSingleQuote_app (a b : string) :
  escapeSingleQuote (a +:+ b) = escapeSingleQuote a +:+ escapeSingleQuote b.
Proof.
  induction a as [|c a IH]; [done|].
  rewrite string_app_cons, !escapeSingleQuote_cons, IH.
  by destruct (Ascii.eqb c "'").
Qed.

Lemma escapeSingleQuote_other (c : ascii) :
  c ≠ "'"%char → escapeSingleQuote (String c "") = String c "".
Proof.
  intros Hc. rewrite escapeSingleQuote_cons.
  by rewrite (proj2 (Ascii.eqb_neq c "'") Hc).
Qed.

Lemma quotesEscapedAfter_escape (prev : ascii) (s : string) :
  quotesEscapedAfter prev (escapeSingleQuote s) = true.
Proof.
  revert prev. induction s as [|c s IH]; intros prev; [done|].
  rewrite escapeSingleQuote_cons. destruct (Ascii.eqb c "'") eqn:Hc.
  - cbn. apply IH.
  - cbn. rewrite Hc. cbn. apply IH.
Qed.

Lemma quotesEscaped_escape (s : string) : quotesEscaped (escapeSingleQuote s) = true.
Proof. apply quotesEscapedAfter_escape. Qed.

Lemma isSecret_false (secrets : list string) (key : string) :
  isSecret secrets key = false ↔ ∀ secret, secret ∈ secrets → EqualFold key secret = false.
Proof.
  rewrite <-not_true_iff_false, isSecret_true. split.
  - intros Hno secret Hin. apply not_true_is_false. intros Hfold. apply Hno. eauto.
  - intros Hall (secret & Hin & Hfold). by rewrite (Hall _ Hin) in Hfold.
Qed.

(** C6, amended.  In a command that rendering returns, the line of a
    header whose key folds to no entry of [SecretHeaders] is
    [-H 'key: values'] with the values, joined by comma and blank,
    passed through [escapeSingleQuote], and the body line is
    [-d 'body'] with the body passed through it; [escapeSingleQuote]
    writes a backslash before every single quote and leaves every
    other byte as it is, so that each single quote of its result
    follows a backslash. *)
Theorem quotes_escaped_in_values_and_body (entries : list (string * list string))
  (t : CurlTransport) (req : Request) :
  rangeOrder (ReqHeader req) entries →
  (dumpRequestAsCurlIn entries t req).1.2 = None →
  (∀ k vs,
     ReqHeader req !! k = Some vs →
     (∀ secret, secret ∈ SecretHeaders t → EqualFold k secret = false) →
     ∃ before after,
       (dumpRequestAsCurlIn entries t req).1.1
       = commandOf (before
                    ++ ("-H '" +:+ k +:+ ": "
                        +:+ escapeSingleQuote (String.concat ", " vs) +:+ "'")
                    :: after))
  ∧ (∀ body,
       Body req = Some body →
       ∃ before,
         (dumpRequestAsCurlIn entries t req).1.1
         = commandOf (before
                      ++ ["-d '"
                          +:+ escapeSingleQuote (string_of_list_byte (readerBytes body))
                          +:+ "'"]))
  ∧ (∀ a b, escapeSingleQuote (a +:+ b) = escapeSingleQuote a +:+ escapeSingleQuote b)
  ∧ escapeSingleQuote "'" = "\'"
  ∧ (∀ c, c ≠ "'"%char → escapeSingleQuote (String c "") = String c "")
  ∧ (∀ s, quotesEscaped (escapeSingleQuote s) = true).
Proof.
  intros Hperm Hok.
  split; [|split; [|split; [apply escapeSingleQuote_app|split; [done|
    split; [apply escapeSingleQuote_other|apply quotesEscaped_escape]]]]].
  - intros k vs Hk Hplain%isSecret_false.
    pose proof (hasLine_header entries t req (headerLine t (k, vs)) Hperm
                  (headerLine_elem_of t _ k vs Hk)) as Hline.
    unfold hasLine in Hline. rewrite Hok in Hline.
    by rewrite headerLine_plain in Hline.
  - intros body Hbody. rewrite (dumpRequestAsCurlIn_body entries t req body Hbody) in Hok |- *.
    destruct (readerErr body); [|done]. cbn [fst snd]. rewrite Join_commandOf. eauto.
Qed.

(** ** What a call leaves of the request *)

Example sanitizeLoop_changes_its_copy :
  (sanitizeLoop (New []) (plainURL "/foo" "x=1&client_secret=abc")).2
  = plainURL "/foo" "client_secret=REDACTED&x=1".
Proof. vm_compute. reflexivity. Qed.

(** The same through the store: the request, its URL, its header and its
    body are objects of their own, and the call is followed write by write. *)

Lemma Run_bind_unfold {A B} (m : Run A) (f : A → Run B) (σ : Store) :
  (m ≫= f) σ = match m σ with Some (x, σ') => f x σ' | None => None end.
Proof. reflexivity. Qed.

Lemma sanitizeLoopAt_spec (newURL : loc) (ps : list string) :
  ∀ (params : Values) (v : URL) (us : gmap loc URL) (hs : gmap loc Header)
    (bs : gmap loc Reader) (rs : gmap loc RequestObj),
    sanitizeLoopAt newURL params ps
      {| urlObjs := <[newURL := v]> us; headerObjs := hs; bodyObjs := bs; requestObjs := rs |}
    = Some ((foldl sanitizeStep (params, v) ps).1,
            {| urlObjs := <[newURL := (foldl sanitizeStep (params, v) ps).2]> us;
               headerObjs := hs; bodyObjs := bs; requestObjs := rs |}).
Proof.
  induction ps as [|p ps IH]; intros params v us hs bs rs; [done|].
  cbn [sanitizeLoopAt foldl sanitizeStep].
  destruct (negb (String.eqb (Values_Get params p) "")); [|apply IH].
  rewrite Run_bind_unfold. unfold storeRawQuery. cbn [urlObjs headerObjs bodyObjs requestObjs].
  rewrite lookup_insert_eq. cbn [mbind option_bind]. rewrite insert_insert_eq. apply IH.
Qed.

Lemma sanitizeURLAt_Some (t : CurlTransport) (uri : loc) (σ : Store) (u : URL) :
  urlObjs σ !! uri = Some u →
  sanitizeURLAt t (Some uri) σ
  = Some (sanitizeURL t (Some u),
          {| urlObjs := <[fresh (dom (urlObjs σ)) := (sanitizeLoop t u).2]> (urlObjs σ);
             headerObjs := headerObjs σ; bodyObjs := bodyObjs σ;
             requestObjs := requestObjs σ |}).
Proof.
  intros Hu. unfold sanitizeURLAt. rewrite Run_bind_unfold. unfold loadURL at 1.
  rewrite Hu. cbn [mbind option_bind]. rewrite Run_bind_unfold. unfold allocURL.
  rewrite Run_bind_unfold. unfold loadURL at 1. cbn [urlObjs]. rewrite lookup_insert_eq.
  cbn [mbind option_bind]. rewrite Run_bind_unfold, sanitizeLoopAt_spec.
  rewrite Run_bind_unfold. unfold loadURL. cbn [urlObjs]. rewrite lookup_insert_eq.
  done.
Qed.


Lemma urlsAfter_lookup (t : CurlTransport) (uri : option loc) (σ : Store) (l : loc) (v : URL) :
  urlObjs σ !! l = Some v → urlsAfter t uri σ !! l = Some v.
Proof.
  intros Hl. unfold urlsAfter. destruct uri as [uri|]; [|done].
  destruct (urlObjs σ !! uri) as [u|]; [|done].
  rewrite lookup_insert_ne; [done|]. intros <-.
  apply (is_fresh (dom (urlObjs σ))), elem_of_dom. by exists v.
Qed.

Lemma sanitizeURLAt_spec (t : CurlTransport) (uri : option loc) (σ : Store) (u : option URL) :
  match uri with
  | None => Some None
  | Some uri => Some <$> urlObjs σ !! uri
  end = Some u →
  sanitizeURLAt t uri σ
  = Some (sanitizeURL t u,
          {| urlObjs := urlsAfter t uri σ; headerObjs := headerObjs σ;
             bodyObjs := bodyObjs σ; requestObjs := requestObjs σ |}).
Proof.
  destruct uri as [uri|]; cbn [urlsAfter].
  - destruct (urlObjs σ !! uri) as [u'|] eqn:Hu; [|done]. intros [= <-].
    exact (sanitizeURLAt_Some t uri σ u' Hu).
  - intros [= <-]. by destruct σ.
Qed.

Lemma dumpRequestAsCurlAt_run (t : CurlTransport) (req : loc) (σ : Store)
  (o : RequestObj) (u : option URL) (h : Header) :
  requestObjs σ !! req = Some o →
  match oURL o with
  | None => Some None
  | Some uri => Some <$> urlObjs σ !! uri
  end = Some u →
  match oHeader o with
  | None => Some ∅
  | Some h => headerObjs σ !! h
  end = Some h →
  dumpRequestAsCurlAt t req σ =
    let lines :=
      ["curl -X " +:+ oMethod o; sanitizeURL t u]
      ++ sort_Strings (foldl (headerStep t) [] (map_to_list h)) in
    let urls := urlsAfter t (oURL o) σ in
    match oBody o with
    | None =>
        Some ((Join lines lineSep, None),
              {| urlObjs := urls; headerObjs := headerObjs σ;
                 bodyObjs := bodyObjs σ; requestObjs := requestObjs σ |})
    | Some b =>
        match bodyObjs σ !! b with
        | None => None
        | Some body =>
            let bodies1 := <[b := (ReadAll body).2]> (bodyObjs σ) in
            match (ReadAll body).1.2 with
            | Some e =>
                Some (("", Some e),
                      {| urlObjs := urls; headerObjs := headerObjs σ;
                         bodyObjs := bodies1; requestObjs := requestObjs σ |})
            | None =>
                let buf := (ReadAll body).1.1 in
                let b' := fresh (dom bodies1) in
                Some ((Join (lines ++ [bodyLine buf]) lineSep, None),
                      {| urlObjs := urls; headerObjs := headerObjs σ;
                         bodyObjs := <[b' := NewBuffer buf]> bodies1;
                         requestObjs :=
                           <[req := {| oMethod := oMethod o; oURL := oURL o;
                                       oHeader := oHeader o; oBody := Some b' |}]>
                             (requestObjs σ) |})
            end
        end
    end.
Proof.
  intros Ho Hu Hh. unfold dumpRequestAsCurlAt.
  rewrite Run_bind_unfold. unfold loadRequest at 1. rewrite Ho. cbn [mbind option_bind].
  rewrite Run_bind_unfold, (sanitizeURLAt_spec t _ σ u Hu).
  rewrite Run_bind_unfold.
  match goal with
  | |- context [loadHeader (oHeader o) ?σ1] =>
      assert (loadHeader (oHeader o) σ1 = Some (h, σ1)) as ->
  end.
  { unfold loadHeader. cbn [headerObjs].
    destruct (oHeader o); [|by simplify_eq]. by rewrite Hh. }
  cbn zeta. destruct (oBody o) as [b|]; [|done].
  rewrite Run_bind_unfold. unfold readAllFrom. cbn [bodyObjs].
  destruct (bodyObjs σ !! b) as [body|]; [|done]. cbn [mbind option_bind].
  destruct (ReadAll body) as [[buf err] r']. cbn [fst snd urlObjs headerObjs bodyObjs requestObjs].
  destruct err as [e|]; [done|].
  rewrite Run_bind_unfold. unfold allocBody. rewrite Run_bind_unfold.
  unfold storeBody. cbn [requestObjs]. rewrite Ho. done.
Qed.

Lemma view_inv (req : loc) (σ : Store) (r : Request) :
  view req σ = Some r →
  ∃ o,
    requestObjs σ !! req = Some o
    ∧ match oURL o with
      | None => Some None
      | Some uri => Some <$> urlObjs σ !! uri
      end = Some (ReqURL r)
    ∧ match oHeader o with
      | None => Some ∅
      | Some h => headerObjs σ !! h
      end = Some (ReqHeader r)
    ∧ match oBody o with
      | None => Some None
      | Some b => Some <$> bodyObjs σ !! b
      end = Some (Body r)
    ∧ Method r = oMethod o.
Proof.
  unfold view. intros Hview.
  destruct (requestObjs σ !! req) as [o|]; [|done]. cbn in Hview.
  destruct (match oURL o with None => Some None | Some uri => Some <$> urlObjs σ !! uri end)
    as [u|] eqn:Hu; [|done]. cbn in Hview.
  destruct (match oHeader o with None => Some ∅ | Some h => headerObjs σ !! h end)
    as [h|] eqn:Hh; [|done]. cbn in Hview.
  destruct (match oBody o with None => Some None | Some b => Some <$> bodyObjs σ !! b end)
    as [b|] eqn:Hb; [|done]. cbn in Hview. injection Hview as <-. by exists o.
Qed.

Lemma view_intro (req : loc) (σ : Store) (o : RequestObj) (r : Request) :
  requestObjs σ !! req = Some o →
  match oURL o with
  | None => Some None
  | Some uri => Some <$> urlObjs σ !! uri
  end = Some (ReqURL r) →
  match oHeader o with
  | None => Some ∅
  | Some h => headerObjs σ !! h
  end = Some (ReqHeader r) →
  match oBody o with
  | None => Some None
  | Some b => Some <$> bodyObjs σ !! b
  end = Some (Body r) →
  Method r = oMethod o →
  view req σ = Some r.
Proof.
  intros Ho Hu Hh Hb Hm. unfold view. rewrite Ho. cbn.
  rewrite Hu. cbn. rewrite Hh. cbn. rewrite Hb. cbn. rewrite <-Hm. by destruct r.
Qed.

Lemma RoundTripAt_run (D : RoundTripper) (t : CurlTransport) (req : loc) (σ σ' : Store)
  (s : string) (err : option error) :
  dumpRequestAsCurlAt t req σ = Some ((s, err), σ') →
  RoundTripAt D t req σ =
    match err with
    | Some e => Some (((None, Some e), []), σ')
    | None =>
        match view req σ' with
        | Some sent => Some ((transport D t sent, [Logged s; Sent sent]), σ')
        | None => None
        end
    end.
Proof.
  intros Hdump. unfold RoundTripAt. rewrite Run_bind_unfold, Hdump.
  destruct err as [e|]; [done|]. rewrite Run_bind_unfold. unfold loadView.
  by destruct (view req σ').
Qed.


(** C9. A call of [dumpRequestAsCurl] on a request leaves every URL
    object of the store as it was, the URL of the request among them:
    [sanitizeURL] writes the re-encoded query to a copy, a URL object
    that did not exist before the call.  The call writes neither to a
    header map nor to any other request, and leaves the method, the
    URL pointer and the header pointer of the request as they were.
    Of the body, a failed read leaves the pointer as it was, and a
    successful one sets it to a stream that did not exist before, over
    the bytes the old stream delivered.  [RoundTrip] hands the
    delegate the request in that state, with method, URL and header
    as before the call, or fails without a call.  The string, the
    error and the request after the call are those of the rendering
    of the request read out of the store. *)
Theorem render_frame (D : RoundTripper) (t : CurlTransport) (req : loc) (σ : Store)
  (r : Request) :
  view req σ = Some r →
  ∃ s err σ',
    dumpRequestAsCurlAt t req σ = Some ((s, err), σ')
    ∧ (s, err) = (dumpRequestAsCurl t r).1
    ∧ view req σ' = Some (dumpRequestAsCurl t r).2
    ∧ (∀ l u, urlObjs σ !! l = Some u → urlObjs σ' !! l = Some u)
    ∧ match ReqURL r with
      | None => urlObjs σ' = urlObjs σ
      | Some u =>
          ∃ newURL,
            urlObjs σ !! newURL = None
            ∧ urlObjs σ' = <[newURL := (sanitizeLoop t u).2]> (urlObjs σ)
      end
    ∧ headerObjs σ' = headerObjs σ
    ∧ (∀ l, l ≠ req → requestObjs σ' !! l = requestObjs σ !! l)
    ∧ (∃ o o',
         requestObjs σ !! req = Some o
         ∧ requestObjs σ' !! req = Some o'
         ∧ oMethod o' = oMethod o
         ∧ oURL o' = oURL o
         ∧ oHeader o' = oHeader o
         ∧ match oBody o with
           | None => oBody o' = None ∧ bodyObjs σ' = bodyObjs σ
           | Some b =>
               match err with
               | Some _ => oBody o' = Some b
               | None =>
                   ∃ b' body,
                     oBody o' = Some b'
                     ∧ bodyObjs σ !! b = Some body
                     ∧ bodyObjs σ !! b' = None
                     ∧ bodyObjs σ' !! b' = Some (NewBuffer (readerBytes body))
               end
           end)
    ∧ match err with
      | Some e => RoundTripAt D t req σ = Some (((None, Some e), []), σ')
      | None =>
          ∃ sent,
            view req σ' = Some sent
            ∧ RoundTripAt D t req σ
              = Some ((transport D t sent, [Logged s; Sent sent]), σ')
            ∧ Method sent = Method r
            ∧ ReqURL sent = ReqURL r
            ∧ ReqHeader sent = ReqHeader r
      end.
Proof.
  intros (o & Ho & Hu & Hh & Hb & Hm)%view_inv.
  pose proof (dumpRequestAsCurlAt_run t req σ o _ _ Ho Hu Hh) as Hrun. cbn zeta in Hrun.
  assert (match oURL o with
          | None => Some None
          | Some uri => Some <$> urlsAfter t (oURL o) σ !! uri
          end = Some (ReqURL r)) as Hu'.
  { destruct (oURL o) as [uri|] eqn:Huri; [|done].
    destruct (urlObjs σ !! uri) as [u|] eqn:Hl; [|done].
    by rewrite (urlsAfter_lookup t (Some uri) σ uri u Hl). }
  assert (match ReqURL r with
          | None => urlsAfter t (oURL o) σ = urlObjs σ
          | Some u =>
              ∃ newURL,
                urlObjs σ !! newURL = None
                ∧ urlsAfter t (oURL o) σ = <[newURL := (sanitizeLoop t u).2]> (urlObjs σ)
          end) as Hcopy.
  { unfold urlsAfter. destruct (oURL o) as [uri|].
    - destruct (urlObjs σ !! uri) as [u|]; [|done]. cbn in Hu. injection Hu as <-.
      exists (fresh (dom (urlObjs σ))). split; [|done].
      apply not_elem_of_dom, is_fresh.
    - by injection Hu as <-. }
  pose proof (urlsAfter_lookup t (oURL o) σ) as Hkeep.
  unfold dumpRequestAsCurl, dumpRequestAsCurlIn. rewrite Hm.
  destruct (oBody o) as [b|] eqn:Hbody.
  - destruct (bodyObjs σ !! b) as [body|] eqn:Hbl; [|done].
    cbn in Hb. injection Hb as Hb. rewrite <-Hb.
    pose proof (ReadAll_spec body) as Hspec.
    destruct (ReadAll body) as [[buf err] drained] eqn:Hread. cbn [fst snd] in Hrun.
    destruct err as [e|].
    + eexists _, _, _. split; [exact Hrun|]. cbn [fst snd urlObjs headerObjs requestObjs].
      assert (view req
                {| urlObjs := urlsAfter t (oURL o) σ; headerObjs := headerObjs σ;
                   bodyObjs := <[b:=drained]> (bodyObjs σ); requestObjs := requestObjs σ |}
              = Some (with_Body r (Some drained))) as Hview.
      { apply (view_intro _ _ o); cbn [urlObjs headerObjs requestObjs bodyObjs
                                        ReqURL ReqHeader Body Method with_Body]; try done.
        rewrite Hbody. by rewrite lookup_insert_eq. }
      split; [done|]. split; [done|]. split; [done|]. split; [done|]. split; [done|].
      split; [done|]. split.
      * exists o, o. by rewrite Hbody.
      * by rewrite (RoundTripAt_run D t req σ _ _ (Some e) Hrun).
    + eexists _, _, _. split; [exact Hrun|]. cbn [fst snd urlObjs headerObjs requestObjs].
      set (b' := fresh (dom (<[b:=drained]> (bodyObjs σ)))).
      assert (bodyObjs σ !! b' = None) as Hfresh.
      { apply not_elem_of_dom. intros Hin.
        apply (is_fresh (dom (<[b:=drained]> (bodyObjs σ)))).
        fold b'. rewrite dom_insert. set_solver. }
      set (σ' := {| urlObjs := urlsAfter t (oURL o) σ; headerObjs := headerObjs σ;
                    bodyObjs := <[b':=NewBuffer buf]> (<[b:=drained]> (bodyObjs σ));
                    requestObjs :=
                      <[req:={| oMethod := oMethod o; oURL := oURL o;
                                oHeader := oHeader o; oBody := Some b' |}]>
                        (requestObjs σ) |}).
      assert (view req σ' = Some (with_Body r (Some (NewBuffer buf)))) as Hview.
      { apply (view_intro _ _ {| oMethod := oMethod o; oURL := oURL o;
                                 oHeader := oHeader o; oBody := Some b' |});
          cbn [urlObjs headerObjs requestObjs bodyObjs σ' oURL oHeader oBody oMethod
               ReqURL ReqHeader Body Method with_Body]; try done.
        - by rewrite lookup_insert_eq.
        - by rewrite lookup_insert_eq. }
      split; [done|]. split; [done|]. split; [done|]. split; [done|]. split; [done|].
      split; [intros l Hl; by rewrite lookup_insert_ne|].
      split.
      * eexists o, _. rewrite lookup_insert_eq. rewrite Hbody.
        repeat split; try done. exists b', body.
        repeat split; try done. cbn [bodyObjs σ']. rewrite lookup_insert_eq.
        by injection Hspec as -> _ _.
      * exists (with_Body r (Some (NewBuffer buf))). split; [done|].
        split; [|done]. rewrite (RoundTripAt_run D t req σ σ' _ None Hrun). by rewrite Hview.
  - cbn in Hb. injection Hb as Hb. rewrite <-Hb.
    assert (view req
              {| urlObjs := urlsAfter t (oURL o) σ; headerObjs := headerObjs σ;
                 bodyObjs := bodyObjs σ; requestObjs := requestObjs σ |} = Some r) as Hview.
    { apply (view_intro _ _ o);
        cbn [urlObjs headerObjs requestObjs bodyObjs]; by rewrite ?Hbody, <-?Hb. }
    eexists _, _, _. split; [exact Hrun|]. cbn [fst snd urlObjs headerObjs requestObjs bodyObjs].
    split; [done|]. split; [done|]. split; [done|]. split; [done|]. split; [done|].
    split; [done|]. split.
    + exists o, o. by rewrite Hbody.
    + exists r. split; [done|]. split; [|done].
      rewrite (RoundTripAt_run D t req σ _ _ None Hrun). by rewrite Hview.
Qed.

(** * Further properties *)

(** ** The constructor and its options *)

Lemma options_fold (os : list Opt) (ct : CurlTransport) :
  foldl (λ ct opt, opt ct) ct (optionOf <$> os) =
    {| SecretHeaders := SecretHeaders ct ++ addedHeaders os;
       SecretParams := SecretParams ct ++ addedParams os;
       Transport := lastTransport (Transport ct) os |}.
Proof.
  revert ct. induction os as [|o os IH]; intros ct.
  - cbn. rewrite !app_nil_r. by destruct ct.
  - cbn [fmap list_fmap foldl]. rewrite IH. unfold addedHeaders, addedParams.
    rewrite !bind_cons. fold (addedHeaders os). fold (addedParams os).
    destruct o as [h|p|tr]; cbn.
    + unfold WithSecretHeader. destruct (String.eqb h ""); cbn; [done|].
      by rewrite <-app_assoc.
    + unfold WithSecretParam. destruct (String.eqb p ""); cbn; [done|].
      by rewrite <-app_assoc.
    + done.
Qed.

Lemma New_options_fold (os : list Opt) :
  New (optionOf <$> os) =
    {| SecretHeaders := "authorization" :: addedHeaders os;
       SecretParams := "client_secret" :: addedParams os;
       Transport := lastTransport None os |}.
Proof. unfold New. by rewrite options_fold. Qed.

(** X1. A transport built by [New] from the package's options has the
    default secret header followed by the non-empty names given to
    [WithSecretHeader], in the order given and with repetitions kept,
    the same for the secret parameters, and the transport of the last
    [WithTransport]. *)
Theorem New_with_options (os : list Opt) :
  SecretHeaders (New (optionOf <$> os)) = "authorization" :: addedHeaders os
  ∧ SecretParams (New (optionOf <$> os)) = "client_secret" :: addedParams os
  ∧ Transport (New (optionOf <$> os)) = lastTransport None os.
Proof. by rewrite New_options_fold. Qed.

Lemma elem_of_addedHeaders (os : list Opt) (h : string) :
  h ∈ addedHeaders os ↔ OptSecretHeader h ∈ os ∧ h ≠ "".
Proof.
  unfold addedHeaders. rewrite list_elem_of_bind. split.
  - intros (o & Hin & Ho). destruct o as [h'|p|tr]; try by apply elem_of_nil in Hin.
    destruct (String.eqb_spec h' ""); [by apply elem_of_nil in Hin|].
    apply list_elem_of_singleton in Hin as ->. done.
  - intros [Ho Hne]. exists (OptSecretHeader h). split; [|done].
    destruct (String.eqb_spec h ""); [done|]. apply list_elem_of_here.
Qed.

Lemma elem_of_addedParams (os : list Opt) (p : string) :
  p ∈ addedParams os ↔ OptSecretParam p ∈ os ∧ p ≠ "".
Proof.
  unfold addedParams. rewrite list_elem_of_bind. split.
  - intros (o & Hin & Ho). destruct o as [h|p'|tr]; try by apply elem_of_nil in Hin.
    destruct (String.eqb_spec p' ""); [by apply elem_of_nil in Hin|].
    apply list_elem_of_singleton in Hin as ->. done.
  - intros [Ho Hne]. exists (OptSecretParam p). split; [|done].
    destruct (String.eqb_spec p ""); [done|]. apply list_elem_of_here.
Qed.

(** X2. Whatever the options a transport is built from, a header whose
    key folds to [authorization], or to a non-empty name given to
    [WithSecretHeader], is rendered as its redacted line. *)
Theorem configured_header_redacted (os : list Opt) (entries : list (string * list string))
  (req : Request) (k secret : string) (vs : list string) :
  rangeOrder (ReqHeader req) entries →
  ReqHeader req !! k = Some vs →
  secret = "authorization" ∨ (OptSecretHeader secret ∈ os ∧ secret ≠ "") →
  EqualFold k secret = true →
  hasLine ("-H '" +:+ k +:+ ": <REDACTED>'")
    (dumpRequestAsCurlIn entries (New (optionOf <$> os)) req).
Proof.
  intros Hperm Hk Hsecret Hfold.
  assert (isSecret (SecretHeaders (New (optionOf <$> os))) k = true) as Hsec.
  { apply isSecret_true. exists secret. split; [|done].
    rewrite New_options_fold. cbn. apply elem_of_cons.
    destruct Hsecret as [->|Hin]; [by left|right]. by apply elem_of_addedHeaders. }
  apply hasLine_header; [done|].
  rewrite <-(headerLine_secret _ k vs Hsec). by apply headerLine_elem_of.
Qed.

(** X3. Whatever the options a transport is built from, a query
    parameter named exactly [client_secret], or exactly by a non-empty
    name given to [WithSecretParam], whose first value is not empty
    stands once in the rendered URL, as [name=REDACTED], among the other
    parameters in the sorted order of the keys. *)
Theorem configured_param_redacted (os : list Opt) (u : URL) (p v : string)
  (vs : list string) :
  p = "client_secret" ∨ (OptSecretParam p ∈ os ∧ p ≠ "") →
  URL_Query u !! p = Some (v :: vs) →
  v ≠ "" →
  ∃ before after,
    Sorted String.le (before ++ p :: after)
    ∧ NoDup (before ++ p :: after)
    ∧ (∀ k, k ∈ before ++ p :: after ↔ is_Some (URL_Query u !! k))
    ∧ (∀ k, k ∈ before ++ after → QueryEscape k ≠ QueryEscape p)
    ∧ sanitizeURL (New (optionOf <$> os)) (Some u)
      = Location u +:+ "?"
        +:+ String.concat "&"
              ((before
                ≫= λ k, renderedPairs k
                          (renderedValues (New (optionOf <$> os)) (URL_Query u) k))
               ++ [QueryEscape p +:+ "=REDACTED"]
               ++ (after
                   ≫= λ k, renderedPairs k
                             (renderedValues (New (optionOf <$> os)) (URL_Query u) k)))
        +:+ fragmentText u.
Proof.
  intros Hp Hlook Hv. apply (secret_param_rendered_once _ u p v vs); [|done..].
  rewrite New_options_fold. cbn. apply elem_of_cons.
  destruct Hp as [->|Hp]; [by left|right]. by apply elem_of_addedParams.
Qed.

Lemma configured_param_redacted_witness :
  ∃ before after,
    Sorted String.le (before ++ "id" :: after)
    ∧ NoDup (before ++ "id" :: after)
    ∧ (∀ k, k ∈ before ++ "id" :: after
            ↔ is_Some (URL_Query (plainURL "/foo" "v=1&id=42&id=43") !! k))
    ∧ (∀ k, k ∈ before ++ after → QueryEscape k ≠ QueryEscape "id")
    ∧ sanitizeURL (New (optionOf <$> [OptSecretParam "id"]))
        (Some (plainURL "/foo" "v=1&id=42&id=43"))
      = Location (plainURL "/foo" "v=1&id=42&id=43") +:+ "?"
        +:+ String.concat "&"
              ((before
                ≫= λ k, renderedPairs k
                          (renderedValues (New (optionOf <$> [OptSecretParam "id"]))
                             (URL_Query (plainURL "/foo" "v=1&id=42&id=43")) k))
               ++ [QueryEscape "id" +:+ "=REDACTED"]
               ++ (after
                   ≫= λ k, renderedPairs k
                             (renderedValues (New (optionOf <$> [OptSecretParam "id"]))
                                (URL_Query (plainURL "/foo" "v=1&id=42&id=43")) k)))
        +:+ fragmentText (plainURL "/foo" "v=1&id=42&id=43").
Proof.
  apply (configured_param_redacted [OptSecretParam "id"]
           (plainURL "/foo" "v=1&id=42&id=43") "id" "42" ["43"]).
  - right. split; [apply list_elem_of_here|discriminate].
  - vm_compute. reflexivity.
  - discriminate.
Defined.

Example configured_param_rendered :
  sanitizeURL (New (optionOf <$> [OptSecretParam "id"]))
    (Some (plainURL "/foo" "v=1&id=42&id=43"))
  = "/foo?id=REDACTED&v=1".
Proof. vm_compute. reflexivity. Qed.

(** ** Policies with the same secrets *)

Lemma isSecret_same (l1 l2 : list string) (k : string) :
  (∀ s, s ∈ l1 ↔ s ∈ l2) → isSecret l1 k = isSecret l2 k.
Proof.
  intros Hsame. apply Bool.eq_iff_eq_true. rewrite !isSecret_true.
  split; intros (s & Hs & He); exists s; (split; [by apply Hsame|done]).
Qed.

Lemma header_loop_same (t1 t2 : CurlTransport) (entries : list (string * list string)) :
  (∀ s, s ∈ SecretHeaders t1 ↔ s ∈ SecretHeaders t2) →
  foldl (headerStep t1) [] entries = foldl (headerStep t2) [] entries.
Proof.
  intros Hsame. rewrite !header_loop_spec. f_equal.
  apply list_fmap_ext. intros i kv _. unfold headerLine.
  by rewrite (isSecret_same _ _ kv.1 Hsame).
Qed.

Lemma sanitizeURL_same (t1 t2 : CurlTransport) (uri : option URL) :
  (∀ p, p ∈ SecretParams t1 ↔ p ∈ SecretParams t2) →
  sanitizeURL t1 uri = sanitizeURL t2 uri.
Proof.
  intros Hsame. destruct uri as [u|]; [|done]. rewrite !sanitizeURL_spec.
  assert (redactsSome t1 (URL_Query u) = redactsSome t2 (URL_Query u)) as ->.
  { apply Bool.eq_iff_eq_true. rewrite !redactsSome_true.
    split; intros (p & Hp & Hv); exists p; (split; [by apply Hsame|done]). }
  assert (redactedParams t1 (URL_Query u) = redactedParams t2 (URL_Query u)) as ->; [|done].
  apply map_eq. intros k. rewrite !redactedParams_lookup.
  by rewrite (bool_decide_ext _ _ (Hsame k)).
Qed.

(** X4. Two policies that name the same secret headers and the same
    secret parameters, in whatever order and however often, render
    every request alike. *)
Theorem same_secrets_same_rendering (t1 t2 : CurlTransport)
  (entries : list (string * list string)) (req : Request) :
  sameSecrets t1 t2 →
  dumpRequestAsCurlIn entries t1 req = dumpRequestAsCurlIn entries t2 req.
Proof.
  intros [Hh Hp]. unfold dumpRequestAsCurlIn.
  by rewrite (sanitizeURL_same t1 t2 _ Hp), (header_loop_same t1 t2 _ Hh).
Qed.

(** ** When rendering fails *)

Lemma curl_line_nonempty (m rest : string) : ("curl -X " +:+ m) +:+ rest ≠ "".
Proof. rewrite string_app_assoc. rewrite !string_app_cons. discriminate. Qed.

Lemma Join_two (a b : string) (l : list string) (sep : string) :
  Join (a :: b :: l) sep = a +:+ sep +:+ Join (b :: l) sep.
Proof. reflexivity. Qed.

(** X5. Rendering fails exactly when the request has a body whose
    reading ends in an error; the error is never [io.EOF].  A failure
    returns the empty string, a success never does: its string starts
    with [curl -X], the method and the line separator. *)
Theorem render_fails_only_on_body (entries : list (string * list string))
  (t : CurlTransport) (req : Request) :
  ((dumpRequestAsCurlIn entries t req).1.2 = None
   ↔ match Body req with
     | None => True
     | Some body => (ReadAll body).1.2 = None
     end)
  ∧ (dumpRequestAsCurlIn entries t req).1.2 ≠ Some io_EOF
  ∧ ((dumpRequestAsCurlIn entries t req).1.1 = ""
     ↔ (dumpRequestAsCurlIn entries t req).1.2 ≠ None)
  ∧ match (dumpRequestAsCurlIn entries t req).1.2 with
    | None =>
        ∃ rest, (dumpRequestAsCurlIn entries t req).1.1
                = "curl -X " +:+ Method req +:+ lineSep +:+ rest
    | Some _ => (dumpRequestAsCurlIn entries t req).1.1 = ""
    end.
Proof.
  destruct (Body req) as [body|] eqn:Hbody.
  - rewrite (dumpRequestAsCurlIn_body entries t req body Hbody), ReadAll_spec.
    unfold headLines.
    destruct (readerErr body); cbn [fst snd]; rewrite <-?app_assoc; cbn [app];
      rewrite ?Join_two.
    + split; [done|]. split; [done|]. split.
      * split; [by intros ?%curl_line_nonempty|done].
      * rewrite string_app_assoc. eauto.
    + split; [done|]. split; [done|]. split; [|done]. done.
  - unfold dumpRequestAsCurlIn. rewrite Hbody. cbn [fst snd app]. rewrite Join_two.
    split; [done|]. split; [done|]. split.
    + split; [by intros ?%curl_line_nonempty|done].
    + rewrite string_app_assoc. eauto.
Qed.

(** ** Rendering again *)

Lemma readerErr_NewBuffer (buf : list byte) : readerErr (NewBuffer buf) = io_EOF.
Proof. by destruct buf. Qed.

Lemma readerBytes_NewBuffer (buf : list byte) : readerBytes (NewBuffer buf) = buf.
Proof. destruct buf; cbn; [done|]. by rewrite app_nil_r. Qed.

Lemma with_Body_same (req : Request) : with_Body req (Body req) = req.
Proof. by destruct req. Qed.

(** Rendering a request whose body is a buffer, or that has none,
    succeeds and leaves the request as it is. *)
Lemma render_restored (entries : list (string * list string)) (t : CurlTransport)
  (req : Request) :
  match Body req with
  | None => True
  | Some body => ∃ buf, body = NewBuffer buf
  end →
  (dumpRequestAsCurlIn entries t req).1.2 = None
  ∧ (dumpRequestAsCurlIn entries t req).2 = req.
Proof.
  destruct (Body req) as [body|] eqn:Hbody.
  - intros [buf ->]. rewrite (dumpRequestAsCurlIn_body entries t req _ Hbody).
    rewrite readerErr_NewBuffer, readerBytes_NewBuffer. cbn [fst snd].
    split; [done|]. by rewrite <-Hbody, with_Body_same.
  - intros _. unfold dumpRequestAsCurlIn. by rewrite Hbody.
Qed.

Lemma render_leaves_restored (entries : list (string * list string)) (t : CurlTransport)
  (req : Request) :
  (dumpRequestAsCurlIn entries t req).1.2 = None →
  match Body (dumpRequestAsCurlIn entries t req).2 with
  | None => True
  | Some body => ∃ buf, body = NewBuffer buf
  end.
Proof.
  destruct (Body req) as [body|] eqn:Hbody.
  - rewrite (dumpRequestAsCurlIn_body entries t req body Hbody).
    destruct (readerErr body); [|done..]. cbn. eauto.
  - unfold dumpRequestAsCurlIn. rewrite Hbody. cbn [fst snd]. by rewrite Hbody.
Qed.

(** X6. After a rendering that succeeded, rendering the request again
    returns the same string and leaves the request as the first
    rendering left it; under any other policy, too, the second
    rendering succeeds and leaves the request as it found it. *)
Theorem render_again (entries entries' : list (string * list string))
  (t t' : CurlTransport) (req : Request) :
  (dumpRequestAsCurlIn entries t req).1.2 = None →
  dumpRequestAsCurlIn entries t (dumpRequestAsCurlIn entries t req).2
  = dumpRequestAsCurlIn entries t req
  ∧ (dumpRequestAsCurlIn entries' t' (dumpRequestAsCurlIn entries t req).2).1.2 = None
  ∧ (dumpRequestAsCurlIn entries' t' (dumpRequestAsCurlIn entries t req).2).2
    = (dumpRequestAsCurlIn entries t req).2.
Proof.
  intros Hok. split; [|by apply render_restored, render_leaves_restored].
  destruct (Body req) as [body|] eqn:Hbody.
  - rewrite (dumpRequestAsCurlIn_body entries t req body Hbody) in Hok |- *.
    destruct (readerErr body); [|done..]. cbn [fst snd].
    rewrite (dumpRequestAsCurlIn_body entries t _ (NewBuffer (readerBytes body)))
      by done.
    by rewrite readerErr_NewBuffer, readerBytes_NewBuffer.
  - unfold dumpRequestAsCurlIn. rewrite Hbody. cbn [snd]. by rewrite Hbody.
Qed.

(** X7. When the delegate of a transport is another [CurlTransport]
    and rendering succeeds, [RoundTrip] returns what the delegate of
    that inner transport answers to the request as the first rendering
    left it: the inner rendering succeeds and hands the request on
    unchanged. *)
Theorem chained_transports (D : RoundTripper) (outer inner : CurlTransport)
  (entries : list (string * list string)) (req : Request) :
  (dumpRequestAsCurlIn entries outer req).1.2 = None →
  (RoundTripIn D entries (WithTransport (Some (asRoundTripper D inner)) outer) req).1.1
  = transport D inner (dumpRequestAsCurlIn entries outer req).2.
Proof.
  intros Hok. unfold RoundTripIn.
  change (dumpRequestAsCurlIn entries (WithTransport _ outer) req)
    with (dumpRequestAsCurlIn entries outer req).
  pose proof (render_leaves_restored entries outer req Hok) as Hrestored.
  destruct (dumpRequestAsCurlIn entries outer req) as [[s err] req'].
  cbn [fst snd] in *. subst err. cbn [fst snd transport Transport WithTransport].
  unfold asRoundTripper, RoundTrip, RoundTripIn.
  destruct (render_restored (map_to_list (ReqHeader req')) inner req' Hrestored)
    as [Hok' Hreq'].
  destruct (dumpRequestAsCurlIn (map_to_list (ReqHeader req')) inner req')
    as [[s' err'] req''].
  cbn [fst snd] in *. by subst.
Qed.

(** X8. The rendering of a request depends on its body only through
    the bytes the body delivers in all and the error that ends it, not
    on how the reads cut the bytes up: two bodies that deliver the same
    bytes, in whatever pieces, and end alike are rendered alike, and
    when the reading succeeds the request is left the same, too. *)
Theorem render_ignores_chunking (entries : list (string * list string))
  (t : CurlTransport) (req : Request) (body1 body2 : Reader) :
  readerBytes body1 = readerBytes body2 →
  readerErr body1 = readerErr body2 →
  (dumpRequestAsCurlIn entries t (with_Body req (Some body1))).1
  = (dumpRequestAsCurlIn entries t (with_Body req (Some body2))).1
  ∧ (readerErr body1 = io_EOF →
     dumpRequestAsCurlIn entries t (with_Body req (Some body1))
     = dumpRequestAsCurlIn entries t (with_Body req (Some body2)))
  ∧ (dumpRequestAsCurlIn entries t (with_Body req (Some body1))).1.2
    = match readerErr body1 with io_EOF => None | e => Some e end.
Proof.
  intros Hbytes Herr.
  unfold dumpRequestAsCurlIn. cbn [Body with_Body Method ReqURL].
  rewrite !ReadAll_spec, <-Herr, <-Hbytes.
  destruct (readerErr body1); cbn [fst snd]; by repeat split.
Qed.

(** ** More on [escapeSingleQuote] *)

Lemma escapeSingleQuote_head (s rest : string) :
  escapeSingleQuote s ≠ String "'"%char rest.
Proof.
  destruct s as [|c s]; [done|]. rewrite escapeSingleQuote_cons.
  destruct (Ascii.eqb c "'") eqn:Hc; [done|].
  intros [= -> _]. by rewrite Ascii.eqb_refl in Hc.
Qed.

Lemma escapeSingleQuote_eq_inv (s1 s2 : string) :
  escapeSingleQuote s1 = escapeSingleQuote s2 → s1 = s2.
Proof.
  revert s2. induction s1 as [|c1 s1 IH]; intros [|c2 s2].
  - done.
  - rewrite escapeSingleQuote_cons. by destruct (Ascii.eqb c2 "'").
  - rewrite escapeSingleQuote_cons. by destruct (Ascii.eqb c1 "'").
  - rewrite !escapeSingleQuote_cons.
    destruct (Ascii.eqb_spec c1 "'") as [->|H1], (Ascii.eqb_spec c2 "'") as [->|H2].
    + intros [= Heq]. by rewrite (IH _ Heq).
    + intros [= <- Heq]. symmetry in Heq. by apply escapeSingleQuote_head in Heq.
    + intros [= -> Heq]. by apply escapeSingleQuote_head in Heq.
    + intros [= -> Heq]. by rewrite (IH _ Heq).
Qed.

(** X9. [escapeSingleQuote] loses nothing: two strings with the same
    escaped text are the same string, although a backslash of the
    input is written as it is. *)
Theorem escapeSingleQuote_inj (s1 s2 : string) :
  escapeSingleQuote s1 = escapeSingleQuote s2 → s1 = s2.
Proof. apply escapeSingleQuote_eq_inv. Qed.

Lemma escapeSingleQuote_inj_witness : "it\'s" = "it\'s".
Proof. apply (escapeSingleQuote_inj "it\'s" "it\'s"). reflexivity. Defined.

Lemma escapeSingleQuote_length (s : string) :
  String.length (escapeSingleQuote s) = String.length s + countByte "'" s.
Proof.
  induction s as [|c s IH]; [done|]. rewrite escapeSingleQuote_cons.
  cbn [countByte]. destruct (Ascii.eqb c "'"); cbn [String.length]; rewrite IH; lia.
Qed.

Lemma escapeSingleQuote_no_quote (s : string) :
  countByte "'" s = 0 → escapeSingleQuote s = s.
Proof.
  induction s as [|c s IH]; [done|]. rewrite escapeSingleQuote_cons. cbn [countByte].
  destruct (Ascii.eqb c "'"); [done|]. intros Hs. by rewrite IH.
Qed.

(** X10. [escapeSingleQuote] makes a string longer by one byte for each
    single quote in it, and returns a string as it is exactly when it
    has no single quote. *)
Theorem escapeSingleQuote_growth (s : string) :
  String.length (escapeSingleQuote s) = String.length s + countByte "'" s
  ∧ (escapeSingleQuote s = s ↔ countByte "'" s = 0).
Proof.
  split; [apply escapeSingleQuote_length|]. split.
  - intros Heq. pose proof (escapeSingleQuote_length s) as Hlen.
    rewrite Heq in Hlen. lia.
  - apply escapeSingleQuote_no_quote.
Qed.

Lemma escapeSingleQuote_Join (vs : list string) :
  escapeSingleQuote (Join vs ", ") = Join (escapeSingleQuote <$> vs) ", ".
Proof.
  induction vs as [|v vs IH]; [done|].
  destruct vs as [|v' vs]; [done|].
  rewrite Join_cons by done. rewrite (fmap_cons _ v), (Join_cons _ (_ <$> _)) by done.
  rewrite !escapeSingleQuote_app. by rewrite IH.
Qed.

(** X11. The line the loop appends for a header whose key folds to no
    entry of [SecretHeaders] holds each of its values escaped on its
    own, the escaped values joined by comma and blank: the separator
    is never escaped. *)
Theorem header_values_escaped_one_by_one (t : CurlTransport) (headers : list string)
  (k : string) (vs : list string) :
  (∀ secret, secret ∈ SecretHeaders t → EqualFold k secret = false) →
  headerStep t headers (k, vs)
  = headers
    ++ ["-H '" +:+ k +:+ ": " +:+ String.concat ", " (escapeSingleQuote <$> vs) +:+ "'"].
Proof.
  intros Hplain%isSecret_false.
  rewrite headerStep_spec, <-Join_concat, <-escapeSingleQuote_Join, Join_concat.
  by rewrite headerLine_plain.
Qed.

(** ** More on the redaction of query parameters *)

Lemma Values_Get_lookup (m1 m2 : Values) (k : string) :
  m1 !! k = m2 !! k → Values_Get m1 k = Values_Get m2 k.
Proof. unfold Values_Get. by intros ->. Qed.

(** X12. The rendered URL does not depend on the values of a secret
    parameter: two URLs that differ only in the values of a parameter
    named by an entry of [SecretParams], its first value not empty in
    both, are rendered alike. *)
Theorem secret_param_values_hidden (t : CurlTransport) (u1 u2 : URL) (p : string) :
  p ∈ SecretParams t →
  Location u1 = Location u2 →
  ForceQuery u1 = ForceQuery u2 →
  Fragment u1 = Fragment u2 →
  delete p (URL_Query u1) = delete p (URL_Query u2) →
  Values_Get (URL_Query u1) p ≠ "" →
  Values_Get (URL_Query u2) p ≠ "" →
  sanitizeURL t (Some u1) = sanitizeURL t (Some u2).
Proof.
  intros Hp Hloc Hforce Hfrag Hrest Hv1 Hv2.
  assert (∀ k, k ≠ p → URL_Query u1 !! k = URL_Query u2 !! k) as Hother.
  { intros k Hk. rewrite <-(lookup_delete_ne (URL_Query u1) p k) by done.
    rewrite Hrest. by apply lookup_delete_ne. }
  rewrite !sanitizeURL_spec.
  rewrite (proj2 (redactsSome_true t (URL_Query u1))) by eauto.
  rewrite (proj2 (redactsSome_true t (URL_Query u2))) by eauto.
  assert (redactedParams t (URL_Query u1) = redactedParams t (URL_Query u2)) as ->.
  { apply map_eq. intros k. rewrite !redactedParams_lookup.
    destruct (decide (k = p)) as [->|Hk].
    - rewrite !(proj2 (hasValue_true _ p)) by done.
      by rewrite bool_decide_eq_true_2.
    - unfold hasValue. rewrite (Values_Get_lookup _ _ k (Hother k Hk)).
      by rewrite (Hother k Hk). }
  unfold URL_String, with_RawQuery. cbn. by rewrite Hloc, Hforce, Hfrag.
Qed.

Lemma secret_param_values_hidden_witness :
  sanitizeURL (New []) (Some (plainURL "/foo" "client_secret=abc&x=1"))
  = sanitizeURL (New []) (Some (plainURL "/foo" "x=1&client_secret=zz&client_secret=y")).
Proof.
  apply (secret_param_values_hidden (New [])
           (plainURL "/foo" "client_secret=abc&x=1")
           (plainURL "/foo" "x=1&client_secret=zz&client_secret=y") "client_secret").
  - apply list_elem_of_here.
  - reflexivity.
  - reflexivity.
  - reflexivity.
  - vm_compute. reflexivity.
  - vm_compute. discriminate.
  - vm_compute. discriminate.
Defined.

Lemma sanitizeLoop_params (t : CurlTransport) (u : URL) :
  (sanitizeLoop t u).1 = redactedParams t (URL_Query u).
Proof. unfold sanitizeLoop. by rewrite sanitize_loop_spec. Qed.

(** X13. The loop of [sanitizeURL] adds no parameter and removes none,
    and a parameter whose name is no entry of [SecretParams] keeps its
    values, in their order, also in the encoded query. *)
Theorem other_params_kept (t : CurlTransport) (u : URL) (k : string) :
  k ∉ SecretParams t →
  (sanitizeLoop t u).1 !! k = URL_Query u !! k
  ∧ encodeKey (sanitizeLoop t u).1 k = encodeKey (URL_Query u) k
  ∧ (∀ j, is_Some ((sanitizeLoop t u).1 !! j) ↔ is_Some (URL_Query u !! j))
  ∧ sanitizeURL t (Some u)
    = if redactsSome t (URL_Query u)
      then URL_String (with_RawQuery u (Values_Encode (sanitizeLoop t u).1))
      else URL_String u.
Proof.
  intros Hk. rewrite sanitizeLoop_params.
  assert (redactedParams t (URL_Query u) !! k = URL_Query u !! k) as Hsame.
  { rewrite redactedParams_lookup. by rewrite bool_decide_eq_false_2. }
  split; [done|]. split; [unfold encodeKey; by rewrite Hsame|].
  split; [intros j; apply redactedParams_is_Some|].
  rewrite sanitizeURL_spec. by destruct (redactsSome t (URL_Query u)).
Qed.

Lemma other_params_kept_witness :
  (sanitizeLoop (New []) (plainURL "/foo" "x=1&client_secret=abc&x=2")).1 !! "x"
  = URL_Query (plainURL "/foo" "x=1&client_secret=abc&x=2") !! "x"
  ∧ encodeKey (sanitizeLoop (New []) (plainURL "/foo" "x=1&client_secret=abc&x=2")).1 "x"
    = encodeKey (URL_Query (plainURL "/foo" "x=1&client_secret=abc&x=2")) "x"
  ∧ (∀ j, is_Some ((sanitizeLoop (New []) (plainURL "/foo" "x=1&client_secret=abc&x=2")).1 !! j)
          ↔ is_Some (URL_Query (plainURL "/foo" "x=1&client_secret=abc&x=2") !! j))
  ∧ sanitizeURL (New []) (Some (plainURL "/foo" "x=1&client_secret=abc&x=2"))
    = if redactsSome (New []) (URL_Query (plainURL "/foo" "x=1&client_secret=abc&x=2"))
      then URL_String (with_RawQuery (plainURL "/foo" "x=1&client_secret=abc&x=2")
                         (Values_Encode
                            (sanitizeLoop (New [])
                               (plainURL "/foo" "x=1&client_secret=abc&x=2")).1))
      else URL_String (plainURL "/foo" "x=1&client_secret=abc&x=2").
Proof.
  apply (other_params_kept (New []) (plainURL "/foo" "x=1&client_secret=abc&x=2") "x").
  cbn. intros Hin%list_elem_of_singleton. discriminate.
Defined.

(** ** Parsing an encoded query *)

Lemma Contains_byte (s : string) (c : ascii) :
  Contains s (String c "") = hasByte c s.
Proof.
  induction s as [|d s IH]; [done|].
  cbn [Contains hasByte String.prefix]. rewrite IH.
  destruct (ascii_dec c d) as [->|Hne].
  - rewrite Ascii.eqb_refl. by destruct s.
  - rewrite (proj2 (Ascii.eqb_neq d c)) by congruence. done.
Qed.

Lemma hasByte_app (c : ascii) (a b : string) :
  hasByte c (a +:+ b) = hasByte c a || hasByte c b.
Proof.
  induction a as [|d a IH]; [done|].
  rewrite string_app_cons. cbn [hasByte]. by rewrite IH, orb_assoc.
Qed.

Lemma Pieces_cons (s : string) (sep : ascii) : ∃ p ps, Pieces s sep = p :: ps.
Proof.
  induction s as [|c s (p & ps & IH)]; [by eexists _, _|].
  cbn [Pieces]. destruct (Ascii.eqb c sep); [by eexists _, _|].
  rewrite IH. by eexists _, _.
Qed.

Lemma Pieces_app (q r : string) (sep : ascii) :
  Pieces (q +:+ String sep r) sep = Pieces q sep ++ Pieces r sep.
Proof.
  induction q as [|c q IH].
  - change ("" +:+ String sep r) with (String sep r). cbn [Pieces].
    by rewrite Ascii.eqb_refl.
  - rewrite string_app_cons. cbn [Pieces]. rewrite IH.
    destruct (Ascii.eqb c sep); [done|].
    by destruct (Pieces_cons q sep) as (p & ps & ->).
Qed.

Lemma Pieces_whole (a : string) (sep : ascii) :
  hasByte sep a = false → Pieces a sep = [a].
Proof.
  induction a as [|c a IH]; [done|]. cbn [hasByte Pieces].
  intros [Hc Ha]%orb_false_iff. by rewrite Hc, IH.
Qed.

Lemma Pieces_Join (pairs : list string) (sep : ascii) :
  pairs ≠ [] →
  Forall (λ a, hasByte sep a = false) pairs →
  Pieces (Join pairs (String sep "")) sep = pairs.
Proof.
  intros Hne Hall. induction Hall as [|a pairs Ha Hall IH]; [done|].
  destruct pairs as [|b pairs]; [by apply Pieces_whole|].
  rewrite Join_cons by done.
  change (a +:+ String sep "" +:+ Join (b :: pairs) (String sep ""))
    with (a +:+ String sep (Join (b :: pairs) (String sep ""))).
  rewrite Pieces_app, Pieces_whole by done. by rewrite IH.
Qed.

Lemma Cut_app (a b : string) (sep : ascii) :
  hasByte sep a = false → Cut (a +:+ String sep b) sep = (a, b, true).
Proof.
  induction a as [|c a IH].
  - intros _. change ("" +:+ String sep b) with (String sep b). cbn [Cut].
    by rewrite Ascii.eqb_refl.
  - cbn [hasByte]. intros [Hc Ha]%orb_false_iff.
    rewrite string_app_cons. cbn [Cut]. by rewrite Hc, IH.
Qed.

Lemma hasByte_escapeByte (d : ascii) :
  hasByte "&" (escapeByte d) = false
  ∧ hasByte ";" (escapeByte d) = false
  ∧ hasByte "=" (escapeByte d) = false.
Proof. destruct d as [[] [] [] [] [] [] [] []]; by vm_compute. Qed.

Lemma hasByte_QueryEscape (s : string) :
  hasByte "&" (QueryEscape s) = false
  ∧ hasByte ";" (QueryEscape s) = false
  ∧ hasByte "=" (QueryEscape s) = false.
Proof.
  induction s as [|d s (IH1 & IH2 & IH3)]; [done|].
  rewrite QueryEscape_cons, !hasByte_app, IH1, IH2, IH3.
  destruct (hasByte_escapeByte d) as (-> & -> & ->). done.
Qed.

Lemma parsePiece_pair (m : Values) (k x : string) :
  parsePiece m (pairText k x) = <[k := default [] (m !! k) ++ [x]]> m.
Proof.
  unfold parsePiece, pairText.
  destruct (hasByte_QueryEscape k) as (_ & Hk2 & Hk3).
  destruct (hasByte_QueryEscape x) as (_ & Hx2 & _).
  rewrite Contains_byte, !hasByte_app, Hk2, Hx2. cbn [orb hasByte Ascii.eqb].
  assert (String.eqb (QueryEscape k +:+ "=" +:+ QueryEscape x) "" = false) as ->.
  { by destruct (QueryEscape k). }
  change (QueryEscape k +:+ "=" +:+ QueryEscape x)
    with (QueryEscape k +:+ String "=" (QueryEscape x)).
  rewrite Cut_app by done. by rewrite !QueryUnescape_QueryEscape.
Qed.

Lemma encodeKey_pairs (v : Values) (k : string) :
  encodeKey v k = pairText k <$> default [] (v !! k).
Proof. reflexivity. Qed.

Lemma parse_pairs (m : Values) (k : string) (l : list string) :
  foldl parsePiece m (pairText k <$> l) =
    match l with
    | [] => m
    | _ => <[k := default [] (m !! k) ++ l]> m
    end.
Proof.
  revert m. induction l as [|x l IH]; intros m; [done|].
  cbn [fmap list_fmap foldl]. rewrite parsePiece_pair, IH.
  destruct l as [|y l]; [done|].
  rewrite lookup_insert_eq, insert_insert_eq. cbn [default]. unfold id.
  by rewrite <-app_assoc.
Qed.

Lemma parse_keys (v : Values) (keys : list string) (m : Values) (j : string) :
  NoDup keys →
  (∀ k, k ∈ keys → m !! k = None) →
  foldl parsePiece m (keys ≫= encodeKey v) !! j =
    if bool_decide (j ∈ keys) then valuesOf v j else m !! j.
Proof.
  revert m. induction keys as [|k keys IH]; intros m Hnodup Hfresh.
  - cbn. rewrite bool_decide_eq_false_2; [done|]. by intros ?%elem_of_nil.
  - apply NoDup_cons in Hnodup as [Hk Hnodup].
    rewrite bind_cons, foldl_app, encodeKey_pairs, parse_pairs.
    rewrite (Hfresh k) by apply list_elem_of_here. cbn [default app].
    rewrite IH; [|done|].
    + destruct (decide (j = k)) as [->|Hne].
      * rewrite (bool_decide_eq_false_2 (k ∈ keys)) by done.
        rewrite (bool_decide_eq_true_2 (k ∈ k :: keys)) by apply list_elem_of_here.
        unfold valuesOf. destruct (v !! k) as [[|x l]|]; simpl.
        -- by apply Hfresh, list_elem_of_here.
        -- by rewrite lookup_insert_eq.
        -- by apply Hfresh, list_elem_of_here.
      * assert (bool_decide (j ∈ k :: keys) = bool_decide (j ∈ keys)) as ->.
        { apply bool_decide_ext. rewrite elem_of_cons.
          split; [intros [?|?]; [congruence|done] | by right]. }
        destruct (bool_decide (j ∈ keys)); [done|].
        destruct (default [] (v !! k)); [done|]. by rewrite lookup_insert_ne.
    + intros k' Hk'. assert (k' ≠ k) by (intros ->; done).
      destruct (default [] (v !! k)); [|rewrite lookup_insert_ne by done];
        by apply Hfresh, list_elem_of_further.
Qed.

Lemma parse_pieces_Join (m : Values) (pairs : list string) :
  Forall (λ a, hasByte "&" a = false) pairs →
  foldl parsePiece m (Pieces (Join pairs "&") "&") = foldl parsePiece m pairs.
Proof.
  intros Hall. destruct pairs as [|a pairs]; [done|].
  by rewrite (Pieces_Join (a :: pairs) "&").
Qed.

Lemma hasByte_pairs (v : Values) (keys : list string) :
  Forall (λ a, hasByte "&" a = false) (keys ≫= encodeKey v).
Proof.
  apply Forall_forall. intros a (k & Hin & _)%list_elem_of_bind.
  rewrite encodeKey_pairs in Hin. apply list_elem_of_fmap in Hin as (x & -> & _).
  unfold pairText. rewrite !hasByte_app.
  destruct (hasByte_QueryEscape k) as (-> & _ & _).
  by destruct (hasByte_QueryEscape x) as (-> & _ & _).
Qed.

(** Parsing an encoded query gives back the parameters. *)
Lemma ParseQuery_Encode (v : Values) :
  noEmptyValues v → ParseQuery (Values_Encode v) = v.
Proof.
  intros Hv. unfold ParseQuery, Values_Encode.
  rewrite parse_pieces_Join by apply hasByte_pairs.
  apply map_eq. intros j.
  rewrite parse_keys; [|apply sortedKeys_NoDup|done].
  unfold valuesOf. destruct (v !! j) as [l|] eqn:Hj.
  - rewrite bool_decide_eq_true_2 by (apply elem_of_sortedKeys; eauto).
    destruct l; [by apply Hv in Hj|done].
  - rewrite bool_decide_eq_false_2; [done|].
    rewrite elem_of_sortedKeys, Hj. by intros [? ?].
Qed.

Lemma parsePiece_noEmptyValues (m : Values) (piece : string) :
  noEmptyValues m → noEmptyValues (parsePiece m piece).
Proof.
  intros Hm. unfold parsePiece.
  destruct (Contains piece ";"); [done|]. destruct (String.eqb piece ""); [done|].
  destruct (Cut piece "=") as [[key value] found].
  destruct (QueryUnescape key) as [key'|]; [|done].
  destruct (QueryUnescape value) as [value'|]; [|done].
  intros k l. destruct (decide (key' = k)) as [->|Hne].
  - rewrite lookup_insert_eq. intros [= <-]. by destruct (default [] (m !! k)).
  - rewrite lookup_insert_ne by done. apply Hm.
Qed.

Lemma ParseQuery_noEmptyValues (query : string) : noEmptyValues (ParseQuery query).
Proof.
  unfold ParseQuery. generalize (Pieces query "&").
  assert (noEmptyValues (∅ : Values)) as Hempty by (intros k l; by rewrite lookup_empty).
  revert Hempty. generalize (∅ : Values).
  intros m Hm l. revert m Hm. induction l as [|p l IH]; intros m Hm; [done|].
  cbn [foldl]. by apply IH, parsePiece_noEmptyValues.
Qed.

Lemma redactedParams_noEmptyValues (t : CurlTransport) (params : Values) :
  noEmptyValues params → noEmptyValues (redactedParams t params).
Proof.
  intros Hp k l. rewrite redactedParams_lookup.
  destruct (_ && _); [by intros [= <-]|apply Hp].
Qed.

Lemma redactedParams_twice (t : CurlTransport) (params : Values) :
  redactedParams t (redactedParams t params) = redactedParams t params.
Proof.
  apply map_eq. intros k. rewrite redactedParams_lookup.
  unfold redactedParams at 1. rewrite hasValue_redacted.
  rewrite redactedParams_lookup. by destruct (_ && _).
Qed.

Lemma redactsSome_redacted (t : CurlTransport) (params : Values) :
  redactsSome t (redactedParams t params) = redactsSome t params.
Proof.
  unfold redactsSome, redactedParams. generalize (SecretParams t) at 2 3.
  intros l. induction l as [|p l IH]; [done|].
  cbn [existsb]. by rewrite hasValue_redacted, IH.
Qed.

(** X14. Sanitizing a URL that [sanitizeURL] has sanitized changes
    nothing more: the loop ends with the same parameters and the same
    URL, and the same string is rendered. *)
Theorem sanitize_twice (t : CurlTransport) (u : URL) :
  sanitizeLoop t (sanitizeLoop t u).2 = sanitizeLoop t u
  ∧ sanitizeURL t (Some (sanitizeLoop t u).2) = sanitizeURL t (Some u).
Proof.
  assert (sanitizeLoop t (sanitizeLoop t u).2 = sanitizeLoop t u) as Hloop.
  { unfold sanitizeLoop at 2. rewrite sanitize_loop_spec. cbn [snd].
    fold (redactsSome t (URL_Query u)). fold (redactedParams t (URL_Query u)).
    destruct (redactsSome t (URL_Query u)) eqn:Hsome.
    - unfold sanitizeLoop, URL_Query. cbn [RawQuery with_RawQuery].
      rewrite ParseQuery_Encode
        by apply redactedParams_noEmptyValues, ParseQuery_noEmptyValues.
      rewrite !sanitize_loop_spec.
      fold (redactsSome t (redactedParams t (ParseQuery (RawQuery u)))).
      fold (redactsSome t (ParseQuery (RawQuery u))).
      fold (redactedParams t (redactedParams t (ParseQuery (RawQuery u)))).
      fold (redactedParams t (ParseQuery (RawQuery u))).
      rewrite redactsSome_redacted, redactedParams_twice.
      unfold URL_Query in Hsome. by rewrite Hsome.
    - unfold sanitizeLoop. rewrite sanitize_loop_spec.
      fold (redactsSome t (URL_Query u)). by rewrite Hsome. }
  split; [done|]. unfold sanitizeURL. by rewrite Hloop.
Qed.

(** X15. The query of the URL that the loop of [sanitizeURL] leaves
    parses back to exactly the parameters the loop leaves: encoding
    loses no parameter and no value. *)
Theorem rendered_query_parses_back (t : CurlTransport) (u : URL) :
  URL_Query (sanitizeLoop t u).2 = (sanitizeLoop t u).1.
Proof.
  unfold sanitizeLoop. rewrite sanitize_loop_spec. cbn [fst snd].
  destruct (existsb (hasValue (URL_Query u)) (SecretParams t)) eqn:Hsome.
  - unfold URL_Query at 1. cbn [RawQuery with_RawQuery].
    apply ParseQuery_Encode.
    apply (redactedParams_noEmptyValues t), ParseQuery_noEmptyValues.
  - symmetry. by apply redacted_none.
Qed.

(** ** Pieces of a query that do not parse *)

Lemma parsePiece_skipped (m : Values) (piece : string) :
  skippedPiece piece = true → parsePiece m piece = m.
Proof.
  unfold skippedPiece, parsePiece.
  destruct (Contains piece ";"); [done|]. destruct (String.eqb piece ""); [done|].
  destruct (Cut piece "=") as [[key value] found]. cbn [fst snd orb].
  destruct (QueryUnescape key) as [key'|]; [|done].
  destruct (QueryUnescape value) as [value'|]; [|done].
  rewrite !bool_decide_eq_true_2 by eauto. done.
Qed.

Lemma ParseQuery_skipped (q bad : string) :
  hasByte "&" bad = false →
  skippedPiece bad = true →
  ParseQuery (q +:+ "&" +:+ bad) = ParseQuery q.
Proof.
  intros Hamp Hbad. unfold ParseQuery.
  change (q +:+ "&" +:+ bad) with (q +:+ String "&" bad).
  rewrite Pieces_app, (Pieces_whole bad) by done.
  rewrite foldl_app. cbn [foldl]. by apply parsePiece_skipped.
Qed.

(** X16. A last piece of the query that [parseQuery] skips (it holds a
    semicolon, or its key or value does not unescape) is absent from
    the rendered URL as soon as one parameter is redacted: the URL is
    rendered as if the piece were not there.  When nothing is redacted
    the piece is rendered with the raw query. *)
Theorem unparsed_piece_dropped (t : CurlTransport) (u : URL) (q bad : string) :
  hasByte "&" bad = false →
  skippedPiece bad = true →
  URL_Query (with_RawQuery u (q +:+ "&" +:+ bad)) = URL_Query (with_RawQuery u q)
  ∧ sanitizeURL t (Some (with_RawQuery u (q +:+ "&" +:+ bad)))
    = if redactsSome t (URL_Query (with_RawQuery u q))
      then sanitizeURL t (Some (with_RawQuery u q))
      else URL_String (with_RawQuery u (q +:+ "&" +:+ bad)).
Proof.
  intros Hamp Hbad.
  assert (URL_Query (with_RawQuery u (q +:+ "&" +:+ bad)) = URL_Query (with_RawQuery u q))
    as Hquery by (unfold URL_Query; cbn [RawQuery with_RawQuery]; by apply ParseQuery_skipped).
  split; [done|]. rewrite !sanitizeURL_spec, Hquery.
  destruct (redactsSome t (URL_Query (with_RawQuery u q))); [|done].
  by rewrite !with_RawQuery_twice.
Qed.

Lemma unparsed_piece_dropped_witness :
  URL_Query (with_RawQuery (plainURL "/foo" "") ("client_secret=abc&x=1" +:+ "&" +:+ "y;z=2"))
  = URL_Query (with_RawQuery (plainURL "/foo" "") "client_secret=abc&x=1")
  ∧ sanitizeURL (New [])
      (Some (with_RawQuery (plainURL "/foo" "") ("client_secret=abc&x=1" +:+ "&" +:+ "y;z=2")))
    = if redactsSome (New [])
           (URL_Query (with_RawQuery (plainURL "/foo" "") "client_secret=abc&x=1"))
      then sanitizeURL (New [])
             (Some (with_RawQuery (plainURL "/foo" "") "client_secret=abc&x=1"))
      else URL_String
             (with_RawQuery (plainURL "/foo" "")
                ("client_secret=abc&x=1" +:+ "&" +:+ "y;z=2")).
Proof.
  apply (unparsed_piece_dropped (New []) (plainURL "/foo" "") "client_secret=abc&x=1" "y;z=2");
    reflexivity.
Defined.

(** ** Header keys that differ in letter case *)

(** ** The body line determines the body *)

Lemma string_length_app (a b : string) :
  String.length (a +:+ b) = String.length a + String.length b.
Proof.
  induction a as [|c a IH]; [done|]. rewrite string_app_cons. cbn [String.length].
  by rewrite IH.
Qed.

Lemma string_app_inj_r (a b c : string) : a +:+ c = b +:+ c → a = b.
Proof.
  revert b. induction a as [|x a IH]; intros [|y b] Heq.
  - done.
  - apply (f_equal String.length) in Heq.
    rewrite !string_length_app in Heq. cbn in Heq. lia.
  - apply (f_equal String.length) in Heq.
    rewrite !string_length_app in Heq. cbn in Heq. lia.
  - rewrite !string_app_cons in Heq. injection Heq as -> Heq. by rewrite (IH _ Heq).
Qed.

Lemma Join_last_inj (l : list string) (a b sep : string) :
  Join (l ++ [a]) sep = Join (l ++ [b]) sep → a = b.
Proof.
  induction l as [|x l IH]; [done|].
  rewrite <-!app_comm_cons, !Join_cons by (by destruct l).
  intros Heq. by apply IH; repeat apply (inj (String.app _)) in Heq.
Qed.

Lemma string_of_list_byte_inj (b1 b2 : list byte) :
  string_of_list_byte b1 = string_of_list_byte b2 → b1 = b2.
Proof.
  intros Heq. rewrite <-(list_byte_of_string_of_list_byte b1), Heq.
  apply list_byte_of_string_of_list_byte.
Qed.

(** X18. The command determines the body: when the renderings of two
    requests that differ only in their bodies succeed with the same
    string, the two bodies delivered the same bytes. *)
Theorem render_determines_body (entries : list (string * list string))
  (t : CurlTransport) (req : Request) (body1 body2 : Reader) :
  (dumpRequestAsCurlIn entries t (with_Body req (Some body1))).1.2 = None →
  (dumpRequestAsCurlIn entries t (with_Body req (Some body2))).1.2 = None →
  (dumpRequestAsCurlIn entries t (with_Body req (Some body1))).1.1
  = (dumpRequestAsCurlIn entries t (with_Body req (Some body2))).1.1 →
  (ReadAll body1).1.1 = (ReadAll body2).1.1.
Proof.
  rewrite (dumpRequestAsCurlIn_body entries t _ body1) by done.
  rewrite (dumpRequestAsCurlIn_body entries t _ body2) by done.
  rewrite !ReadAll_spec. unfold headLines. cbn [Method ReqURL with_Body].
  destruct (readerErr body1), (readerErr body2); cbn [fst snd]; try done.
  intros _ _ Hline%Join_last_inj. unfold bodyLine in Hline.
  apply (inj (String.app _)), string_app_inj_r, escapeSingleQuote_eq_inv in Hline.
  by apply string_of_list_byte_inj.
Qed.

End Folding.

(** * The embedding run on ASCII text *)

Lemma render_restores_body_witness :
  ∃ s,
    dumpRequestAsCurlIn EqualFoldASCII [] (New []) samplePost
      = (s, None, with_Body samplePost (Some (NewBuffer (list_byte_of_string "{login:l'a}"))))
    ∧ Body (dumpRequestAsCurlIn EqualFoldASCII [] (New []) samplePost).2
      = Some (NewBuffer (list_byte_of_string "{login:l'a}"))
    ∧ (ReadAll (NewBuffer (list_byte_of_string "{login:l'a}"))).1 = (ReadAll sampleBody).1
    ∧ (ReadAll (NewBuffer (list_byte_of_string "{login:l'a}"))).1
      = (list_byte_of_string "{login:l'a}", None)
    ∧ ∀ D,
        (RoundTripIn EqualFoldASCII D [] (New []) samplePost).2
        = [Logged s;
           Sent (with_Body samplePost (Some (NewBuffer (list_byte_of_string "{login:l'a}"))))]
        ∧ ∃ sent,
            (RoundTripIn EqualFoldASCII D [] (New []) samplePost).2 = [Logged s; Sent sent]
            ∧ Body sent = Some (NewBuffer (list_byte_of_string "{login:l'a}"))
            ∧ Method sent = Method samplePost
            ∧ ReqURL sent = ReqURL samplePost
            ∧ ReqHeader sent = ReqHeader samplePost
            ∧ (RoundTripIn EqualFoldASCII D [] (New []) samplePost).1.1
              = transport D (New []) sent.
Proof.
  apply (render_restores_body EqualFoldASCII [] (New []) samplePost sampleBody
           (list_byte_of_string "{login:l'a}") (ReadLast [] io_EOF));
    reflexivity.
Defined.

Lemma render_fails_on_read_error_witness :
  (dumpRequestAsCurlIn EqualFoldASCII [] (New []) sampleBadBody).1 = ("", Some (errors_New "custom error"))
  ∧ errors_New "custom error" = readerErr failingBody
  ∧ ∀ D, (RoundTripIn EqualFoldASCII D [] (New []) sampleBadBody).1.1 = (None, Some (errors_New "custom error"))
         ∧ (RoundTripIn EqualFoldASCII D [] (New []) sampleBadBody).2 = [].
Proof.
  apply (render_fails_on_read_error EqualFoldASCII [] (New []) sampleBadBody failingBody
           (list_byte_of_string "yo") (errors_New "custom error")
           (ReadLast [] (errors_New "custom error")));
    reflexivity.
Defined.

Example dumpRequestAsCurl_sampleGet :
  (dumpRequestAsCurl EqualFoldASCII (New []) sampleGet).1.1 =
    Join ["curl -X GET"; "/foo"; "-H 'Accept: a\'1, a2, a3'"; "-H 'AuthoRizaTion: <REDACTED>'"]
      lineSep.
Proof. vm_compute. reflexivity. Qed.

Example dumpRequestAsCurl_samplePost :
  (dumpRequestAsCurl EqualFoldASCII (New []) samplePost).1.1 =
    Join ["curl -X POST"; "/foo"; "-d '{login:l\'a}'"] lineSep.
Proof. vm_compute. reflexivity. Qed.

Lemma render_line_structure_witness :
  ∃ headers bodyLines,
    (dumpRequestAsCurlIn EqualFoldASCII (map_to_list sampleHeader) (New []) sampleGet).1.1
      = String.concat (String " " (String "\" (String "010" (String " " (String " " "")))))
          (["curl -X " +:+ "GET"; sanitizeURL (New []) (ReqURL sampleGet)]
           ++ headers ++ bodyLines)
    ∧ (ReqURL sampleGet = None → sanitizeURL (New []) (ReqURL sampleGet) = "")
    ∧ Sorted String.le headers
    ∧ headers ≡ₚ headerLine EqualFoldASCII (New []) <$> map_to_list sampleHeader
    ∧ bodyLines = []
    ∧ lineSep = String " " (String "\" (String "010" (String " " (String " " "")))).
Proof.
  apply (render_line_structure EqualFoldASCII (map_to_list sampleHeader) (New []) sampleGet).
  - unfold rangeOrder. reflexivity.
  - vm_compute. reflexivity.
Defined.

Lemma render_deterministic_witness :
  dumpRequestAsCurlIn EqualFoldASCII
    [("Accept", ["a'1"; "a2"; "a3"]); ("AuthoRizaTion", ["Bearer ABCD0123"])] (New []) sampleGet
  = dumpRequestAsCurlIn EqualFoldASCII
      [("AuthoRizaTion", ["Bearer ABCD0123"]); ("Accept", ["a'1"; "a2"; "a3"])] (New []) sampleGet.
Proof.
  apply (render_deterministic EqualFoldASCII
           [("Accept", ["a'1"; "a2"; "a3"]); ("AuthoRizaTion", ["Bearer ABCD0123"])]
           [("AuthoRizaTion", ["Bearer ABCD0123"]); ("Accept", ["a'1"; "a2"; "a3"])]
           (New []) sampleGet);
    unfold rangeOrder; apply (bool_decide_unpack _); vm_compute; exact I.
Defined.

(** C3, as stated, fails: a value of a secret header that another
    header carries too is rendered with that other header. *)
Lemma secret_value_shown_by_other_header :
  (dumpRequestAsCurl EqualFoldASCII (New []) sampleSharedToken).1.1
  = Join ["curl -X GET"; "/foo"; "-H 'Authorization: <REDACTED>'"; "-H 'X-Api-Key: tok123'"]
      lineSep
  ∧ ¬ secretValuesAbsent EqualFoldASCII (New []) sampleSharedToken.
Proof.
  split; [by vm_compute|]. intros Habs.
  specialize (Habs "Authorization" ["tok123"] "tok123" "authorization").
  assert (Contains (dumpRequestAsCurl EqualFoldASCII (New []) sampleSharedToken).1.1 "tok123" = true)
    as Hshown by (vm_compute; reflexivity).
  rewrite Habs in Hshown; [discriminate|by vm_compute| |by vm_compute|].
  - vm_compute. apply list_elem_of_here.
  - apply list_elem_of_here.
Qed.

Lemma secret_header_redacted_witness :
  hasLine ("-H '" +:+ "AuthoRizaTion" +:+ ": <REDACTED>'")
    (dumpRequestAsCurlIn EqualFoldASCII (map_to_list sampleHeader) (New []) sampleGet)
  ∧ (dumpRequestAsCurlIn EqualFoldASCII
       (map_to_list (<["AuthoRizaTion" := ["Basic xyz"; "other"]]> sampleHeader))
       (New [])
       (with_Header sampleGet (<["AuthoRizaTion" := ["Basic xyz"; "other"]]> sampleHeader))).1
    = (dumpRequestAsCurlIn EqualFoldASCII (map_to_list sampleHeader) (New []) sampleGet).1.
Proof.
  apply (secret_header_redacted EqualFoldASCII (map_to_list sampleHeader)
           (map_to_list (<["AuthoRizaTion" := ["Basic xyz"; "other"]]> sampleHeader))
           (New []) sampleGet
           (with_Header sampleGet (<["AuthoRizaTion" := ["Basic xyz"; "other"]]> sampleHeader))
           "AuthoRizaTion" ["Bearer ABCD0123"] ["Basic xyz"; "other"]).
  - unfold rangeOrder. reflexivity.
  - vm_compute. reflexivity.
  - exists "authorization". split; [vm_compute; apply list_elem_of_here|reflexivity].
  - reflexivity.
  - reflexivity.
  - reflexivity.
  - reflexivity.
  - unfold rangeOrder. reflexivity.
Defined.

(** C6, as stated, fails for header keys: a single quote in a key is
    written as it is. *)
Lemma header_key_not_escaped :
  (dumpRequestAsCurl EqualFoldASCII (New []) sampleQuotedKey).1.1
  = Join ["curl -X GET"; "/foo"; "-H 'X-It's: v\'1'"] lineSep
  ∧ quotesEscaped "X-It's: v\'1" = false
  ∧ (dumpRequestAsCurl EqualFoldASCII (New []) sampleQuotedKey).1.1
    ≠ Join ["curl -X GET"; "/foo"; keyEscapedLine "X-It's" ["v'1"]] lineSep.
Proof.
  split; [by vm_compute|]. split; [by vm_compute|].
  vm_compute. discriminate.
Qed.

Lemma quotes_escaped_in_values_and_body_witness :
  (∀ k vs,
     ReqHeader sampleQuotes !! k = Some vs →
     (∀ secret, secret ∈ SecretHeaders (New []) → EqualFoldASCII k secret = false) →
     ∃ before after,
       (dumpRequestAsCurlIn EqualFoldASCII (map_to_list sampleHeader) (New []) sampleQuotes).1.1
       = commandOf (before
                    ++ ("-H '" +:+ k +:+ ": "
                        +:+ escapeSingleQuote (String.concat ", " vs) +:+ "'")
                    :: after))
  ∧ (∀ body,
       Body sampleQuotes = Some body →
       ∃ before,
         (dumpRequestAsCurlIn EqualFoldASCII (map_to_list sampleHeader) (New []) sampleQuotes).1.1
         = commandOf (before
                      ++ ["-d '"
                          +:+ escapeSingleQuote (string_of_list_byte (readerBytes body))
                          +:+ "'"]))
  ∧ (∀ a b, escapeSingleQuote (a +:+ b) = escapeSingleQuote a +:+ escapeSingleQuote b)
  ∧ escapeSingleQuote "'" = "\'"
  ∧ (∀ c, c ≠ "'"%char → escapeSingleQuote (String c "") = String c "")
  ∧ (∀ s, quotesEscaped (escapeSingleQuote s) = true).
Proof.
  apply (quotes_escaped_in_values_and_body EqualFoldASCII (map_to_list sampleHeader)
           (New []) sampleQuotes).
  - unfold rangeOrder. reflexivity.
  - vm_compute. reflexivity.
Defined.

Example dumpRequestAsCurl_sampleQuotes :
  (dumpRequestAsCurl EqualFoldASCII (New []) sampleQuotes).1.1 =
    Join ["curl -X POST"; "/foo"; "-H 'Accept: a\'1, a2, a3'"; "-H 'AuthoRizaTion: <REDACTED>'";
          "-d '{login:l\'a}'"] lineSep.
Proof. vm_compute. reflexivity. Qed.

Example request_url_kept_example :
  ReqURL (dumpRequestAsCurl EqualFoldASCII (New [])
            {| Method := "GET"; ReqURL := Some (plainURL "/foo" "x=1&client_secret=abc");
               ReqHeader := ∅; Body := None |}).2
  = Some (plainURL "/foo" "x=1&client_secret=abc").
Proof. vm_compute. reflexivity. Qed.

Lemma configured_header_redacted_witness :
  hasLine ("-H '" +:+ "x-token" +:+ ": <REDACTED>'")
    (dumpRequestAsCurlIn EqualFoldASCII [("x-token", ["abc"])]
       (New (optionOf <$> [OptSecretParam "id"; OptSecretHeader "X-Token"]))
       {| Method := "GET"; ReqURL := None; ReqHeader := {["x-token" := ["abc"]]};
          Body := None |}).
Proof.
  apply (configured_header_redacted EqualFoldASCII [OptSecretParam "id"; OptSecretHeader "X-Token"]
           [("x-token", ["abc"])]
           {| Method := "GET"; ReqURL := None; ReqHeader := {["x-token" := ["abc"]]};
              Body := None |}
           "x-token" "X-Token" ["abc"]).
  - unfold rangeOrder. vm_compute. reflexivity.
  - vm_compute. reflexivity.
  - right. split; [|discriminate]. apply list_elem_of_further, list_elem_of_here.
  - reflexivity.
Defined.

Lemma same_secrets_same_rendering_witness :
  dumpRequestAsCurlIn EqualFoldASCII (map_to_list sampleHeader)
    (New [WithSecretHeader "Authorization"; WithSecretHeader "authorization";
          WithSecretParam "client_secret"]) sampleGet
  = dumpRequestAsCurlIn EqualFoldASCII (map_to_list sampleHeader)
      (New [WithSecretHeader "Authorization"]) sampleGet.
Proof.
  apply (same_secrets_same_rendering EqualFoldASCII
           (New [WithSecretHeader "Authorization"; WithSecretHeader "authorization";
                 WithSecretParam "client_secret"])
           (New [WithSecretHeader "Authorization"])
           (map_to_list sampleHeader) sampleGet).
  split; intros s; cbn; rewrite !elem_of_cons, !elem_of_nil; tauto.
Defined.

Lemma render_again_witness :
  dumpRequestAsCurlIn EqualFoldASCII [] (New []) (dumpRequestAsCurlIn EqualFoldASCII [] (New []) samplePost).2
  = dumpRequestAsCurlIn EqualFoldASCII [] (New []) samplePost
  ∧ (dumpRequestAsCurlIn EqualFoldASCII [] (New [WithSecretHeader "x"])
       (dumpRequestAsCurlIn EqualFoldASCII [] (New []) samplePost).2).1.2 = None
  ∧ (dumpRequestAsCurlIn EqualFoldASCII [] (New [WithSecretHeader "x"])
       (dumpRequestAsCurlIn EqualFoldASCII [] (New []) samplePost).2).2
    = (dumpRequestAsCurlIn EqualFoldASCII [] (New []) samplePost).2.
Proof.
  apply (render_again EqualFoldASCII [] [] (New []) (New [WithSecretHeader "x"]) samplePost).
  vm_compute. reflexivity.
Defined.

Lemma chained_transports_witness :
  (RoundTripIn EqualFoldASCII sampleDelegate [] 
     (WithTransport (Some (asRoundTripper EqualFoldASCII sampleDelegate (New [WithSecretHeader "x"])))
        (New [])) samplePost).1.1
  = transport sampleDelegate (New [WithSecretHeader "x"])
      (dumpRequestAsCurlIn EqualFoldASCII [] (New []) samplePost).2.
Proof.
  apply (chained_transports EqualFoldASCII sampleDelegate (New []) (New [WithSecretHeader "x"]) []
           samplePost).
  vm_compute. reflexivity.
Defined.

Lemma render_ignores_chunking_witness :
  (dumpRequestAsCurlIn EqualFoldASCII [] (New []) (with_Body samplePost (Some sampleBody))).1
  = (dumpRequestAsCurlIn EqualFoldASCII [] (New [])
       (with_Body samplePost (Some sampleChunked))).1
  ∧ (readerErr sampleBody = io_EOF →
     dumpRequestAsCurlIn EqualFoldASCII [] (New []) (with_Body samplePost (Some sampleBody))
     = dumpRequestAsCurlIn EqualFoldASCII [] (New [])
         (with_Body samplePost (Some sampleChunked)))
  ∧ (dumpRequestAsCurlIn EqualFoldASCII [] (New [])
       (with_Body samplePost (Some sampleBody))).1.2
    = match readerErr sampleBody with io_EOF => None | e => Some e end.
Proof.
  apply (render_ignores_chunking EqualFoldASCII [] (New []) samplePost sampleBody
           sampleChunked);
    reflexivity.
Defined.

Lemma header_values_escaped_one_by_one_witness :
  headerStep EqualFoldASCII (New []) [] ("Accept", ["a'1"; "a2"; "it's"])
  = [] ++ ["-H '" +:+ "Accept" +:+ ": "
           +:+ String.concat ", " (escapeSingleQuote <$> ["a'1"; "a2"; "it's"]) +:+ "'"].
Proof.
  apply (header_values_escaped_one_by_one EqualFoldASCII (New []) [] "Accept"
           ["a'1"; "a2"; "it's"]).
  intros secret Hin. cbn in Hin. apply list_elem_of_singleton in Hin as ->. reflexivity.
Defined.





Lemma render_determines_body_witness :
  (ReadAll sampleBody).1.1 = (ReadAll sampleChunked).1.1.
Proof.
  apply (render_determines_body EqualFoldASCII [] (New []) samplePost sampleBody sampleChunked);
    vm_compute; reflexivity.
Defined.

Lemma sanitizeURL_query_order_witness :
  (∃ keys,
     Sorted String.le keys
     ∧ NoDup keys
     ∧ (∀ k, k ∈ keys
             ↔ is_Some (URL_Query (plainURL "/foo" "x=1&client_secret=abc&b=2") !! k))
     ∧ sanitizeURL (New []) (Some (plainURL "/foo" "x=1&client_secret=abc&b=2"))
       = Location (plainURL "/foo" "x=1&client_secret=abc&b=2") +:+ "?"
         +:+ String.concat "&"
               (keys ≫= λ k,
                  renderedPairs k
                    (renderedValues (New [])
                       (URL_Query (plainURL "/foo" "x=1&client_secret=abc&b=2")) k))
         +:+ fragmentText (plainURL "/foo" "x=1&client_secret=abc&b=2"))
  ∧ sanitizeURL (New []) (Some (plainURL "/foo" "b=1&a=2"))
    = Location (plainURL "/foo" "b=1&a=2")
      +:+ (if ForceQuery (plainURL "/foo" "b=1&a=2")
              || negb (String.eqb (RawQuery (plainURL "/foo" "b=1&a=2")) "")
           then "?" +:+ RawQuery (plainURL "/foo" "b=1&a=2") else "")
      +:+ fragmentText (plainURL "/foo" "b=1&a=2").
Proof.
  split.
  - apply (proj1 (sanitizeURL_query_order EqualFoldASCII (New [])
                    (plainURL "/foo" "x=1&client_secret=abc&b=2"))).
    exists "client_secret". split; [apply list_elem_of_here|]. vm_compute. discriminate.
  - apply (proj2 (sanitizeURL_query_order EqualFoldASCII (New []) (plainURL "/foo" "b=1&a=2"))).
    intros k p Hp Hk.
    assert (URL_Query (plainURL "/foo" "b=1&a=2") = <["b" := ["1"]]> (<["a" := ["2"]]> ∅)) as ->
      by (vm_compute; reflexivity).
    apply list_elem_of_singleton in Hp as ->.
    unfold Values_Get.
    destruct (decide (k = "b")) as [->|Hb]; [by destruct Hk|].
    destruct (decide (k = "a")) as [->|Ha]; [by destruct Hk|].
    by rewrite lookup_insert_ne, lookup_insert_ne, lookup_empty.
Defined.

Lemma render_frame_witness :
  ∃ s err σ',
    dumpRequestAsCurlAt EqualFoldASCII (New []) 1%positive sampleStore = Some ((s, err), σ')
    ∧ (s, err) = (dumpRequestAsCurl EqualFoldASCII (New []) sampleStored).1
    ∧ view 1%positive σ' = Some (dumpRequestAsCurl EqualFoldASCII (New []) sampleStored).2
    ∧ (∀ l u, urlObjs sampleStore !! l = Some u → urlObjs σ' !! l = Some u)
    ∧ match ReqURL sampleStored with
      | None => urlObjs σ' = urlObjs sampleStore
      | Some u =>
          ∃ newURL,
            urlObjs sampleStore !! newURL = None
            ∧ urlObjs σ' = <[newURL := (sanitizeLoop (New []) u).2]> (urlObjs sampleStore)
      end
    ∧ headerObjs σ' = headerObjs sampleStore
    ∧ (∀ l, l ≠ 1%positive → requestObjs σ' !! l = requestObjs sampleStore !! l)
    ∧ (∃ o o',
         requestObjs sampleStore !! 1%positive = Some o
         ∧ requestObjs σ' !! 1%positive = Some o'
         ∧ oMethod o' = oMethod o
         ∧ oURL o' = oURL o
         ∧ oHeader o' = oHeader o
         ∧ match oBody o with
           | None => oBody o' = None ∧ bodyObjs σ' = bodyObjs sampleStore
           | Some b =>
               match err with
               | Some _ => oBody o' = Some b
               | None =>
                   ∃ b' body,
                     oBody o' = Some b'
                     ∧ bodyObjs sampleStore !! b = Some body
                     ∧ bodyObjs sampleStore !! b' = None
                     ∧ bodyObjs σ' !! b' = Some (NewBuffer (readerBytes body))
               end
           end)
    ∧ match err with
      | Some e =>
          RoundTripAt EqualFoldASCII sampleDelegate (New []) 1%positive sampleStore
          = Some (((None, Some e), []), σ')
      | None =>
          ∃ sent,
            view 1%positive σ' = Some sent
            ∧ RoundTripAt EqualFoldASCII sampleDelegate (New []) 1%positive sampleStore
              = Some ((transport sampleDelegate (New []) sent, [Logged s; Sent sent]), σ')
            ∧ Method sent = Method sampleStored
            ∧ ReqURL sent = ReqURL sampleStored
            ∧ ReqHeader sent = ReqHeader sampleStored
      end.
Proof.
  apply (render_frame EqualFoldASCII sampleDelegate (New []) 1%positive sampleStore
           sampleStored).
  vm_compute. reflexivity.
Defined.

(** The rendering of the sample store: the URL of the request, at 2,
    keeps its query; the copy, at 3, holds the redacted one; the
    request points to a new body, at 5, and the old one, at 4, is
    drained. *)
Example dumpRequestAsCurlAt_sampleStore :
  ∃ σ',
    dumpRequestAsCurlAt EqualFoldASCII (New []) 1%positive sampleStore
    = Some ((Join ["curl -X POST"; "/foo?client_secret=REDACTED&x=1";
                   "-H 'Accept: a\'1, a2, a3'"; "-H 'AuthoRizaTion: <REDACTED>'";
                   "-d '{login:l\'a}'"] lineSep, None), σ')
    ∧ urlObjs σ' !! 2%positive = Some (plainURL "/foo" "x=1&client_secret=abc")
    ∧ urlObjs σ' !! 3%positive = Some (plainURL "/foo" "client_secret=REDACTED&x=1")
    ∧ requestObjs σ' !! 1%positive
      = Some {| oMethod := "POST"; oURL := Some 2%positive; oHeader := Some 3%positive;
                oBody := Some 5%positive |}
    ∧ bodyObjs σ' !! 5%positive = Some (NewBuffer (readerBytes sampleBody))
    ∧ bodyObjs σ' !! 4%positive = Some (ReadLast [] io_EOF).
Proof. eexists. split; [vm_compute; reflexivity|]. vm_compute. repeat split. Qed.
